(** * The view bar machine, the session setter and the state selectors

    A shallow embedding of three parts of the app:
    - [ViewBar]: the xstate machine [viewBarMachine] that owns the ordered
      list of view stages, each paired with a spawned stage actor;
    - [Session]: the Recoil atoms, the transactional setter of [useSetView]
      and the selectors over [atoms.stateDescription];
    - [Polling]: the asynchronous [fiftyone] selector, as an interaction
      tree over fetch and timer events. *)

From stdpp Require Import gmap strings list fin_maps pretty.
From ITree Require Import ITree.
From Stdlib Require Import ZArith.

(** ** JavaScript values shared by the three parts *)

Inductive JsError := TypeError | ReferenceError.

(** The outcome of evaluating code that may throw. *)
Inductive Result (A : Type) :=
| Ok (a : A)
| Throw (e : JsError).
Arguments Ok {A} a.
Arguments Throw {A} e.

Module ViewBar.

(** *** Data *)

Record ParamSchema := { param_name : string; param_type : string }.

(** One entry of [event.data.stages], the answer of [GET /stages]. *)
Record StageDescriptor := { name : string; params : list ParamSchema }.

Definition Catalog := list StageDescriptor.

(** [uuid()] identifiers and xstate actor references are opaque; both are
    drawn from counters of the runtime. *)
Definition Uuid := nat.
Definition ActorRef := nat.

(** The object built by [createStage]; it is also the context of a stage
    actor and the [stage] payload of [STAGE.COMMIT] and [STAGE.DELETE]. *)
Record Stage := {
  id : Uuid;
  submitted : bool;
  stage : string;
  parameters : list (string * string);
  stageInfo : option Catalog;
  index : Z;
  focusOnInit : bool;
  hideDelete : bool
}.

(** An element of [ctx.stages] once running: [{...newStage, ref}]. *)
Record StageEntry := { entry : Stage; ref : ActorRef }.

(** The machine context. [ctx.stages] holds stage names (strings) until
    the [running] entry action replaces them by stage entries. *)
Record Bar (T : Type) := {
  port : option N;
  stages : list T;
  bar_stageInfo : option Catalog
}.
Arguments port {T} _.
Arguments stages {T} _.
Arguments bar_stageInfo {T} _.

(** What lives outside the context: the identifiers handed out so far and
    the spawned actors, each with its own context. *)
Record Runtime := {
  uuids : nat;
  spawned : nat;
  actors : gmap ActorRef Stage
}.

(** *** Effects: state passing over the runtime, with exceptions *)

Definition Eff (A : Type) : Type := Runtime -> Result (A * Runtime).

Definition ret {A} (a : A) : Eff A := fun rt => Ok (a, rt).

Definition throw {A} (e : JsError) : Eff A := fun _ => Throw e.

Definition bind {A B} (m : Eff A) (k : A -> Eff B) : Eff B :=
  fun rt =>
    match m rt with
    | Ok (a, rt') => k a rt'
    | Throw e => Throw e
    end.

Notation "'let*' x ':=' m 'in' k" := (bind m (fun x => k))
  (at level 10, x name, m at level 100, k at level 200).

Definition uuid : Eff Uuid :=
  fun rt =>
    Ok (uuids rt,
        {| uuids := S (uuids rt); spawned := spawned rt; actors := actors rt |}).

(** [spawn(viewStageMachine.withContext(newStage))]: a new actor whose
    context is [newStage]. *)
Definition spawn (newStage : Stage) : Eff ActorRef :=
  fun rt =>
    Ok (spawned rt,
        {| uuids := uuids rt;
           spawned := S (spawned rt);
           actors := <[spawned rt := newStage]> (actors rt) |}).

(** [{...s, hideDelete: h}]. *)
Definition set_hideDelete (h : bool) (s : Stage) : Stage :=
  {| id := id s; submitted := submitted s; stage := stage s;
     parameters := parameters s; stageInfo := stageInfo s; index := index s;
     focusOnInit := focusOnInit s; hideDelete := h |}.

(** [send] applied to the event [{type: "STAGE.SET_HIDE_DELETE", hideDelete,
    to}] and to nothing else.  The target of a [send] is an option of its
    second argument; here [to] is a property of the event, so the event goes
    to the bar itself.  The bar has no transition for
    "STAGE.SET_HIDE_DELETE" and drops it: no actor receives anything and no
    context changes. *)
Definition send_SET_HIDE_DELETE (h : bool) (to : ActorRef) : Eff unit :=
  fun rt => Ok (tt, rt).

(** *** Array operations on integer positions *)

Section Arrays.
Context {A : Type}.

(** The clamping of a relative position by [Array.prototype.slice]. *)
Definition slice_pos (l : list A) (k : Z) : nat :=
  if (k <? 0)%Z
  then Z.to_nat (Z.max (Z.of_nat (length l) + k) 0)
  else Z.to_nat (Z.min k (Z.of_nat (length l))).

(** [l.slice(0, k)] *)
Definition slice_to (l : list A) (k : Z) : list A := take (slice_pos l k) l.

(** [l.slice(k)] *)
Definition slice_from (l : list A) (k : Z) : list A := drop (slice_pos l k) l.

(** [l[k]]; [None] is [undefined]. *)
Definition at_index (l : list A) (k : Z) : option A :=
  if (k <? 0)%Z then None else l !! Z.to_nat k.
End Arrays.

(** *** createStage, createBar *)

Definition createStage (stage0 : string) (index0 : Z)
    (stageInfo0 : option Catalog) (focusOnInit0 hideDelete0 : bool) : Eff Stage :=
  let* i := uuid in
  ret {| id := i; submitted := false; stage := stage0; parameters := [];
         stageInfo := stageInfo0; index := index0;
         focusOnInit := focusOnInit0; hideDelete := hideDelete0 |}.

Definition createBar (port0 : N) : Bar string :=
  {| port := Some port0; stages := []; bar_stageInfo := None |}.

(** *** initializing: the onDone transition of the getStageInfo invocation *)

(** Both assigners read the context as it was before the transition.  When
    [ctx.stages] is not empty the second one evaluates the identifier
    [stages], which the module never binds. *)
Definition onDone (ctx : Bar string) (data_stages : Catalog) : Result (Bar string) :=
  match stages ctx with
  | [] => Ok {| port := port ctx; stages := [""%string];
                bar_stageInfo := Some data_stages |}
  | _ :: _ => Throw ReferenceError
  end.

(** *** running: the entry action *)

(** [ctx.stages.map((stage, i) => ...)] from position [i] on. *)
Fixpoint materialize (info : option Catalog) (i : nat) (l : list string)
    : Eff (list StageEntry) :=
  match l with
  | [] => ret []
  | stage0 :: rest =>
      let* newStage := createStage stage0 (Z.of_nat i) info false true in
      let* r := spawn newStage in
      let* tl := materialize info (S i) rest in
      ret ({| entry := newStage; ref := r |} :: tl)
  end.

Definition running_entry (ctx : Bar string) : Eff (Bar StageEntry) :=
  let* l := materialize (bar_stageInfo ctx) 0 (stages ctx) in
  ret {| port := port ctx; stages := l; bar_stageInfo := bar_stageInfo ctx |}.

(** A running bar together with the runtime around it. *)
Definition World : Type := Bar StageEntry * Runtime.

(** The whole of [initializing -> running] on [done.invoke]. *)
Definition enter_running (ctx : Bar string) (data_stages : Catalog)
    (rt : Runtime) : Result World :=
  match onDone ctx data_stages with
  | Ok ctx' => running_entry ctx' rt
  | Throw e => Throw e
  end.

(** *** Events of the running bar *)

Inductive Event :=
| STAGE_ADD (e_index : Z)
| STAGE_COMMIT (e_stage : Stage)
| STAGE_DELETE (e_stage : Stage).

Definition with_stages (ctx : Bar StageEntry) (l : list StageEntry) : Bar StageEntry :=
  {| port := port ctx; stages := l; bar_stageInfo := bar_stageInfo ctx |}.

(** The [assign] of STAGE.ADD. *)
Definition assign_STAGE_ADD (e_index : Z) (ctx : Bar StageEntry) : Eff (Bar StageEntry) :=
  let* newStage := createStage "" e_index (bar_stageInfo ctx) true false in
  let* r := spawn newStage in
  ret (with_stages ctx
         (slice_to (stages ctx) e_index
            ++ {| entry := newStage; ref := r |}
            :: slice_from (stages ctx) e_index)).

(** The [assign] of STAGE.COMMIT; reading [.ref] of [undefined] throws. *)
Definition assign_STAGE_COMMIT (e_stage : Stage) (ctx : Bar StageEntry)
    : Eff (Bar StageEntry) :=
  let newStages := stages ctx in
  match at_index newStages (index e_stage) with
  | None => throw TypeError
  | Some old =>
      ret (with_stages ctx
             (<[Z.to_nat (index e_stage) := {| entry := e_stage; ref := ref old |}]>
                newStages))
  end.

(** The [assign] of STAGE.DELETE. *)
Definition assign_STAGE_DELETE (e_stage : Stage) (ctx : Bar StageEntry)
    : Eff (Bar StageEntry) :=
  match stages ctx with
  | [s0] =>
      ret (with_stages ctx
             [ {| entry := set_hideDelete true e_stage; ref := ref s0 |} ])
  | l =>
      ret (with_stages ctx
             (filter (fun s => id (entry s) ≠ id e_stage) l))
  end.

(** [send(({stages}) => ({type: "STAGE.SET_HIDE_DELETE", hideDelete, to:
    stages[0].ref}))]: the event is built on the context the assign has
    produced, where reading [.ref] of [stages[0]] throws on an empty list,
    and is then sent as [send_SET_HIDE_DELETE] has it. *)
Definition send_to_first (h : Bar StageEntry -> bool) (ctx : Bar StageEntry) : Eff unit :=
  match stages ctx with
  | [] => throw TypeError
  | s0 :: _ => send_SET_HIDE_DELETE (h ctx) (ref s0)
  end.

Definition handle (e : Event) (ctx : Bar StageEntry) : Eff (Bar StageEntry) :=
  match e with
  | STAGE_ADD e_index =>
      let* ctx' := assign_STAGE_ADD e_index ctx in
      let* _ := send_to_first (fun _ => false) ctx' in
      ret ctx'
  | STAGE_COMMIT e_stage =>
      assign_STAGE_COMMIT e_stage ctx
  | STAGE_DELETE e_stage =>
      let* ctx' := assign_STAGE_DELETE e_stage ctx in
      let* _ := send_to_first (fun c => bool_decide (length (stages c) = 1)) ctx' in
      ret ctx'
  end.

(** One event processed by the interpreter: the assign first, then the send
    on the context it produced.  When one of them throws there is no next
    state. *)
Definition transition (w : World) (e : Event) : Result World :=
  handle e (fst w) (snd w).

(** The state after an event: the one before, when the actions threw. *)
Definition after (w : World) (e : Event) : World :=
  match transition w e with
  | Ok w' => w'
  | Throw _ => w
  end.

(** The states a bar goes through: it enters [running], then processes
    events. *)
Inductive reachable : World -> Prop :=
| reachable_entry ctx data_stages rt w :
    enter_running ctx data_stages rt = Ok w ->
    reachable w
| reachable_step w e w' :
    reachable w ->
    transition w e = Ok w' ->
    reachable w'.

(** The visibility flag in the context of a stage's actor, as the bar has
    set it: the bar writes this context when it spawns the actor, and sends
    the actor nothing afterwards. *)
Definition actor_hideDelete (w : World) (s : StageEntry) : option bool :=
  hideDelete <$> actors (snd w) !! ref s.

(** A blank stage is one as [createStage("", ...)] builds it. *)
Definition blank (s : Stage) : Prop :=
  stage s = ""%string /\ parameters s = [] /\ submitted s = false.

(** Every [index] field of the list is the position of its stage. *)
Definition indexed (w : World) : Prop :=
  forall k e, stages (fst w) !! k = Some e -> index (entry e) = Z.of_nat k.

(** Every stage of the list has its actor. *)
Definition refs_alive (w : World) : Prop :=
  forall e, e ∈ stages (fst w) -> is_Some (actors (snd w) !! ref e).

End ViewBar.

Module Session.

(** *** Objects of the state description *)

(** A property value of a label record. *)
Inductive JsValue :=
| JsStr (s : string)
| JsNum (n : Z)
| JsNull.

(** A label record is an open object: the reader looks for the property
    [labelId], the writer adds the property [label_id]. *)
Abbreviation Label := (gmap string JsValue).

(** **** Numbers as property keys

    [JsNum n] is the number that the numeral [n] denotes: the double nearest
    to [n].  As a property key a number is printed by [Number::toString]:
    with the fewest significant digits that still denote the same double,
    and in exponent form once it has more than 21 digits. *)

(** The double nearest to a positive integer, ties going to the even
    significand; [None] is [Infinity]. *)
Definition nearest_double (v : Z) : option Z :=
  let bits := (Z.log2 v + 1)%Z in
  if (bits <=? 53)%Z then Some v
  else
    let sh := (bits - 53)%Z in
    let q := Z.shiftr v sh in
    let r := Z.land v (Z.ones sh) in
    let half := Z.shiftl 1 (sh - 1) in
    let q' := if (half <? r)%Z || ((r =? half)%Z && Z.odd q) then (q + 1)%Z else q in
    let d := Z.shiftl q' sh in
    if (Z.shiftl 1 1024 <=? d)%Z then None else Some d.

(** The number of decimal digits of a positive integer. *)
Definition digits (v : Z) : nat := String.length (pretty v).

(** The decimal with [k] significant digits that denotes the double [x]:
    of the two next to [x], the one that rounds to [x], and the closer one
    when both do. *)
Definition shortest_at (x : Z) (k : nat) : option Z :=
  let p := (10 ^ Z.of_nat (digits x - k))%Z in
  let below := (x / p * p)%Z in
  let above := (below + p)%Z in
  let denotes c := bool_decide (nearest_double c = Some x) in
  match denotes below, denotes above with
  | true, true =>
      if (x - below <? above - x)%Z then Some below
      else if (above - x <? x - below)%Z then Some above
      else if Z.even (x / p) then Some below else Some above
  | true, false => Some below
  | false, true => Some above
  | false, false => None
  end.

(** The decimal with the fewest significant digits that denotes the double
    [x]; 17 digits always do. *)
Definition shortest_decimal (x : Z) : Z :=
  default x (head (omap (shortest_at x) (seq 1 17))).

Fixpoint strip_zeros (fuel : nat) (c : Z) : Z :=
  match fuel with
  | O => c
  | S fuel => if (c mod 10 =? 0)%Z then strip_zeros fuel (c / 10) else c
  end.

(** [Number::toString] of a positive double with an integer value. *)
Definition double_to_string (x : Z) : string :=
  let c := shortest_decimal x in
  let n := digits c in
  if bool_decide (n <= 21) then pretty c
  else
    let s := pretty (strip_zeros n c) in
    let e := pretty (Z.of_nat (n - 1)) in
    if bool_decide (String.length s = 1) then s +:+ "e+" +:+ e
    else String.substring 0 1 s +:+ "." +:+ String.substring 1 (String.length s - 1) s
           +:+ "e+" +:+ e.

Definition number_key (n : Z) : string :=
  match n with
  | Z0 => "0"
  | Z.pos _ =>
      match nearest_double n with
      | Some x => double_to_string x
      | None => "Infinity"
      end
  | Z.neg _ =>
      match nearest_double (- n) with
      | Some x => "-" +:+ double_to_string x
      | None => "-Infinity"
      end
  end.

(** The property key a value turns into when used as the key of an entry;
    [None] is [undefined]. *)
Definition property_key (v : option JsValue) : string :=
  match v with
  | Some (JsStr s) => s
  | Some (JsNum n) => number_key n
  | Some JsNull => "null"
  | None => "undefined"
  end.

(** **** Reading a property

    The objects of the state description and the literal [{}] inherit from
    [Object.prototype]; [k in o] and [o[k]] look there when [o] has no own
    property [k]. *)

(** The string-keyed properties of [Object.prototype]. *)
Definition Object_prototype : list string :=
  ["constructor"; "__defineGetter__"; "__defineSetter__"; "hasOwnProperty";
   "__lookupGetter__"; "__lookupSetter__"; "isPrototypeOf";
   "propertyIsEnumerable"; "toString"; "valueOf"; "__proto__";
   "toLocaleString"]%string.

(** What a read gives: the value of an own property, [undefined], or
    something built in: [Builtin [k]] is [Object.prototype[k]], and
    [Builtin [k; k']] is what reading [k'] from that gives.  What is built
    in there is not modelled further. *)
Inductive Read (V : Type) :=
| Value (v : V)
| Undefined
| Builtin (path : list string).
Arguments Value {V} v.
Arguments Undefined {V}.
Arguments Builtin {V} path.

(** [o[k]]. *)
Definition get_property {V} (o : gmap string V) (k : string) : Read V :=
  match o !! k with
  | Some v => Value v
  | None => if bool_decide (k ∈ Object_prototype) then Builtin [k] else Undefined
  end.

(** [k in o]. *)
Definition has_property {V} (k : string) (o : gmap string V) : bool :=
  bool_decide (is_Some (o !! k)) || bool_decide (k ∈ Object_prototype).

(** [Object.fromEntries]: a later entry with the same key wins. *)
Definition fromEntries {V} (l : list (string * V)) : gmap string V :=
  foldl (fun m kv => <[kv.1 := kv.2]> m) ∅ l.

(** [Object.entries]; the enumeration order of the object is not modelled. *)
Definition entries {V} (m : gmap string V) : list (string * V) := map_to_list m.

Record Dataset := {
  ds_name : option string;
  ds_mediaType : option string;
  defaultMaskTargets : option (gmap string string);
  maskTargets : option (gmap string (gmap string string))
}.

(** [atoms.stateDescription]; a property that is absent is [None].  The
    camel-case [selectedLabels] and the snake-case [selected_labels] are
    two different properties. *)
Record StateDescription := {
  sd_dataset : option Dataset;
  sd_selectedLabels : option (list Label);
  sd_selected_labels : option (list Label);
  sd_refresh : option bool;
  sd_activeHandle : option string;
  sd_datasets : option (list string)
}.

(** A committed view stage, [State.Stage]. *)
Record ViewStage := { _cls : string; kwargs : list (string * string) }.

(** The Recoil atoms: the root snapshot.  [Field] is the type of a
    collapsed field schema. *)
Record RootSnapshot (Field : Type) := {
  stateDescription : option StateDescription;
  view : list ViewStage;
  viewCls : option string;
  sampleFields : list Field;
  frameFields : list Field;
  modal : option string;
  hiddenLabels : gmap string Label;
  tagging : bool -> bool -> bool;
  teamsSubmitted : bool * bool;
  stateSubscription : string
}.
Arguments stateDescription {Field} _.
Arguments view {Field} _.
Arguments viewCls {Field} _.
Arguments sampleFields {Field} _.
Arguments frameFields {Field} _.
Arguments modal {Field} _.
Arguments hiddenLabels {Field} _.
Arguments tagging {Field} _ _ _.
Arguments teamsSubmitted {Field} _.
Arguments stateSubscription {Field} _.

(** *** Recoil: committed snapshots and transactions *)

(** Readers see committed snapshots only: the current one, and before it
    those of [earlier] (most recent first). *)
Record Store (Field : Type) := {
  current : RootSnapshot Field;
  earlier : list (RootSnapshot Field)
}.
Arguments current {Field} _.
Arguments earlier {Field} _.

Definition observable {Field} (st : Store Field) : list (RootSnapshot Field) :=
  current st :: earlier st.

(** The body of a transaction writes to a pending snapshot. *)
Definition Tx (Field A : Type) : Type := RootSnapshot Field -> A * RootSnapshot Field.

Definition tx_seq {Field A B} (a : Tx Field A) (b : Tx Field B) : Tx Field B :=
  fun s => b (a s).2.

(** [useRecoilTransaction_UNSTABLE]: the writes of the body are committed
    together, as one new snapshot. *)
Definition useRecoilTransaction {Field} (body : Tx Field unit) (st : Store Field)
    : Store Field :=
  {| current := (body (current st)).2; earlier := current st :: earlier st |}.

Section Atoms.
Context {Field : Type}.
Abbreviation Snapshot := (RootSnapshot Field).

Definition set_viewCls (v : option string) : Tx Field unit :=
  fun s => (tt,
    {| stateDescription := stateDescription s; view := view s; viewCls := v;
       sampleFields := sampleFields s; frameFields := frameFields s;
       modal := modal s; hiddenLabels := hiddenLabels s; tagging := tagging s;
       teamsSubmitted := teamsSubmitted s;
       stateSubscription := stateSubscription s |}).

Definition set_sampleFields (v : list Field) : Tx Field unit :=
  fun s => (tt,
    {| stateDescription := stateDescription s; view := view s;
       viewCls := viewCls s; sampleFields := v; frameFields := frameFields s;
       modal := modal s; hiddenLabels := hiddenLabels s; tagging := tagging s;
       teamsSubmitted := teamsSubmitted s;
       stateSubscription := stateSubscription s |}).

Definition set_frameFields (v : list Field) : Tx Field unit :=
  fun s => (tt,
    {| stateDescription := stateDescription s; view := view s;
       viewCls := viewCls s; sampleFields := sampleFields s; frameFields := v;
       modal := modal s; hiddenLabels := hiddenLabels s; tagging := tagging s;
       teamsSubmitted := teamsSubmitted s;
       stateSubscription := stateSubscription s |}).

Definition set_view (v : list ViewStage) : Tx Field unit :=
  fun s => (tt,
    {| stateDescription := stateDescription s; view := v;
       viewCls := viewCls s; sampleFields := sampleFields s;
       frameFields := frameFields s;
       modal := modal s; hiddenLabels := hiddenLabels s; tagging := tagging s;
       teamsSubmitted := teamsSubmitted s;
       stateSubscription := stateSubscription s |}).

Definition set_stateDescription (v : option StateDescription) : Snapshot -> Snapshot :=
  fun s =>
    {| stateDescription := v; view := view s;
       viewCls := viewCls s; sampleFields := sampleFields s;
       frameFields := frameFields s;
       modal := modal s; hiddenLabels := hiddenLabels s; tagging := tagging s;
       teamsSubmitted := teamsSubmitted s;
       stateSubscription := stateSubscription s |}.
End Atoms.

(** *** useSetView *)

Section UseSetView.
(** [collapseFields] is imported from the package root, which is not
    among the sources: it is a parameter, from raw to collapsed schemas. *)
Context {StrField Field : Type} (collapseFields : list StrField -> list Field).

(** The argument of [setter]. *)
Record SetterArgs := {
  a_view : list ViewStage;
  a_sampleFields : list Field;
  a_frameFields : list Field;
  a_viewCls : option string
}.

(** The body of the transaction, in the order of the source. *)
Definition setter_body (a : SetterArgs) : Tx Field unit :=
  tx_seq (set_viewCls (a_viewCls a))
    (tx_seq (set_sampleFields (a_sampleFields a))
       (tx_seq (set_frameFields (a_frameFields a))
          (set_view (a_view a)))).

Definition setter (a : SetterArgs) : Store Field -> Store Field :=
  useRecoilTransaction (setter_body a).

(** The [setView] member of a successful response. *)
Record SetViewResponse := {
  r_view : list ViewStage;
  r_viewCls : option string;
  r_frameFields : list StrField;
  r_sampleFields : list StrField
}.

Definition onCompleted (r : SetViewResponse) : Store Field -> Store Field :=
  setter {| a_viewCls := r_viewCls r;
            a_view := r_view r;
            a_frameFields := collapseFields (r_frameFields r);
            a_sampleFields := collapseFields (r_sampleFields r) |}.
End UseSetView.

(** *** Selectors *)

(** Modelled from the spec: [packageMessage] (../utils/socket) is not among
    the sources; the spec has the notification carry "the full re-serialized
    label-selection list". *)
Record Message := { msg_type : string; msg_selected_labels : list Label }.

Definition packageMessage (type : string) (labels : list Label) : Message :=
  {| msg_type := type; msg_selected_labels := labels |}.

Section Selectors.
Context {Field : Type}.
Abbreviation Snapshot := (RootSnapshot Field).

(** The selector [targets]; [get(atoms.stateDescription).dataset] has no
    optional chaining on the state description. *)
Record Targets := {
  defaults : gmap string string;
  fields : gmap string (gmap string string)
}.

Definition targets (s : Snapshot) : Result Targets :=
  match stateDescription s with
  | None => Throw TypeError
  | Some sd =>
      Ok {| defaults := default ∅ (sd_dataset sd ≫= defaultMaskTargets);
            fields := default ∅ (sd_dataset sd ≫= maskTargets) |}
  end.

(** The selector [getTarget].  When [field in fields] holds through
    [Object.prototype] only, [fields[field]] is a built-in and [target] is
    read from it; reading from [undefined] would throw. *)
Definition getTarget (s : Snapshot)
    : Result (string -> string -> Result (Read string)) :=
  match targets s with
  | Throw e => Throw e
  | Ok t =>
      Ok (fun field target =>
            if has_property field (fields t) then
              match get_property (fields t) field with
              | Value m => Ok (get_property m target)
              | Builtin path => Ok (Builtin (path ++ [target]))
              | Undefined => Throw TypeError
              end
            else Ok (get_property (defaults t) target))
  end.



(** The getter of the selector [selectedLabels].  The array [labels] is
    always truthy, so the final [return {}] is never reached. *)
Definition selectedLabels_get (s : Snapshot) : Result (gmap string Label) :=
  let labels := default [] (stateDescription s ≫= sd_selectedLabels) in
  Ok (fromEntries ((fun l : Label => (property_key (l !! "labelId"), l)) <$> labels)).

(** The selector [selectedLabelIds]. *)
Definition selectedLabelIds (s : Snapshot) : Result (gset string) :=
  match selectedLabels_get s with
  | Throw e => Throw e
  | Ok labels => Ok (dom labels)
  end.

(** [{...state, selected_labels: labels}]; spreading [null] adds nothing. *)
Definition spread_selected_labels (state : option StateDescription)
    (labels : list Label) : StateDescription :=
  {| sd_dataset := state ≫= sd_dataset;
     sd_selectedLabels := state ≫= sd_selectedLabels;
     sd_selected_labels := Some labels;
     sd_refresh := state ≫= sd_refresh;
     sd_activeHandle := state ≫= sd_activeHandle;
     sd_datasets := state ≫= sd_datasets |}.

(** The setter of the selector [selectedLabels]; the socket is the list of
    the messages sent so far. *)
Definition selectedLabels_set (value : gmap string Label)
    (s : Snapshot) (socket : list Message) : Snapshot * list Message :=
  let state := stateDescription s in
  let labels :=
    (fun kv : string * Label => <["label_id" := JsStr kv.1]> kv.2) <$> entries value in
  let newState := spread_selected_labels state labels in
  (set_stateDescription (Some newState) s,
   socket ++ [packageMessage "set_selected_labels" labels]).
End Selectors.

End Session.

Module Polling.

(** A parsed JSON body.  Numbers are integers here, and the items of an
    array and the members of an object are kept as text: what matters below
    is which values are [null] and which are falsy. *)
Inductive Json :=
| JNull
| JBool (b : bool)
| JNumber (n : Z)
| JString (s : string)
| JArray (items : list string)
| JObject (members : list (string * string)).

(** [if (response)] *)
Definition truthy (v : Json) : bool :=
  match v with
  | JNull => false
  | JBool b => b
  | JNumber n => negb (n =? 0)%Z
  | JString s => negb (String.eqb s "")
  | JArray _ | JObject _ => true
  end.

(** [response === null] *)
Definition is_null (v : Json) : bool :=
  match v with
  | JNull => true
  | _ => false
  end.

(** What the selector asks of its environment:
    - [Fetch url] is [await (await fetch(url)).json()], answered by the
      parsed body, or by [None] when either promise rejects;
    - [SetTimeout ms] is [await new Promise((r) => setTimeout(r, ms))]. *)
Variant netE : Type -> Type :=
| Fetch (url : string) : netE (option Json)
| SetTimeout (ms : N) : netE unit.

Section Fiftyone.
(** [http] comes from ../shared/connection, which is not among the
    sources. *)
Variable http : string.

(** The rest of a turn of the do-while loop once the fetch has settled:
    [r] is the parsed body, or [None] when the [try] block threw, which
    leaves [response] as it was.  [inr] leaves the loop with the value to
    return, [inl] goes round again. *)
Definition after_fetch (response : Json) (r : option Json) : itree netE (Json + Json) :=
  let response := from_option (fun v => v) response r in
  if truthy response
  then Ret (inr response)
  else ITree.bind (ITree.trigger (SetTimeout 2000))
         (fun _ => Ret (if is_null response then inl response else inr response)).

(** One turn of the loop on the variable [response]. *)
Definition attempt (response : Json) : itree netE (Json + Json) :=
  ITree.bind (ITree.trigger (Fetch (http +:+ "/fiftyone"))) (after_fetch response).

(** The getter of the selector [fiftyone]. *)
Definition fiftyone : itree netE Json := ITree.iter attempt JNull.
End Fiftyone.

(** The network as the selector meets it: [replies i] is the outcome of the
    i-th request made, [None] for a failed one. *)
Record Net := {
  replies : nat -> option Json;
  requests : nat;
  waited : N
}.

(** A network nobody has used yet. *)
Definition fresh (r : nat -> option Json) : Net :=
  {| replies := r; requests := 0; waited := 0 |}.

Definition answer {T} (e : netE T) (n : Net) : T * Net :=
  match e in netE T return T * Net with
  | Fetch _ =>
      (replies n (requests n),
       {| replies := replies n; requests := S (requests n); waited := waited n |})
  | SetTimeout ms =>
      (tt, {| replies := replies n; requests := requests n; waited := (waited n + ms)%N |})
  end.

(** Running a program against a network for at most [fuel] steps. *)
Fixpoint run {R} (fuel : nat) (t : itree netE R) (n : Net) : option (R * Net) :=
  match fuel with
  | 0 => None
  | S fuel' =>
      match observe t with
      | RetF r => Some (r, n)
      | TauF t' => run fuel' t' n
      | VisF e k => let '(x, n') := answer e n in run fuel' (k x) n'
      end
  end.

(** The network after one more request and [wait] milliseconds. *)
Definition advance (n : Net) (wait : N) : Net :=
  {| replies := replies n; requests := S (requests n);
     waited := (waited n + wait)%N |}.

(** A reply that leaves [response] at [null]: a failed fetch or a [null]
    body. *)
Definition null_reply (r : option Json) : bool :=
  match r with
  | None | Some JNull => true
  | Some _ => false
  end.

(** The [k] replies from request [a] on are all null replies. *)
Definition null_until (r : nat -> option Json) (a k : nat) : Prop :=
  forall i, i < k -> null_reply (r (a + i)) = true.

(** The network after [k] null replies and the reply [v]: one request per
    reply, two seconds after each null reply, and two more after [v] when
    [v] is falsy. *)
Definition settled_with (n : Net) (k : nat) (v : Json) : Net :=
  {| replies := replies n;
     requests := requests n + k + 1;
     waited := (waited n + 2000 * N.of_nat k + (if truthy v then 0 else 2000))%N |}.

(** Two networks with the same replies are equal when their counters are. *)
Ltac same_net :=
  unfold advance, settled_with; cbn [replies requests waited];
  try destruct (truthy _);
  repeat match goal with
         | |- Some _ = Some _ => f_equal
         | |- (_, _) = (_, _) => f_equal
         | |- Build_Net _ _ _ = Build_Net _ _ _ => f_equal
         end;
  lia.

End Polling.

Module Projections.
Import Session.

(** Truthiness of an optional string: [undefined], [null] and the empty
    string are falsy. *)
Definition truthy_string (v : option string) : bool :=
  match v with
  | Some s => negb (String.eqb s "")
  | None => false
  end.

Instance JsValue_eq_dec : EqDecision JsValue.
Proof. solve_decision. Defined.

(** The id under which the getter of [selectedLabels] files a label: its
    [labelId] property, as a property key. *)
Definition key_of (l : Label) : string := property_key (l !! "labelId"%string).

(** An entry of [dataset.brainMethods]. *)
Record BrainConfig := { method : string; patches_field : option string }.
Record BrainMethod := { config : BrainConfig }.

(** The value of the selector [similarityKeys]. *)
Record SimilarityKeys := {
  patches : list (string * string);
  samples : list string
}.

(** [get(fiftyone).teams], like the atom [teamsSubmitted], holds two flags;
    the atom of the snapshot keeps them as the pair (submitted, minimized). *)
Record Teams := { teams_submitted : bool; teams_minimized : bool }.

(** What [showTeamsButton] touches outside Recoil: the local storage of the
    window, and the requests posted so far. *)
Record Browser := {
  localStorage : gmap string string;
  posted : list string
}.

Section Selectors.
Context {Field : Type}.
Abbreviation Snapshot := (RootSnapshot Field).

(** The [brainMethods] property of a dataset, which the record [Dataset]
    does not list. *)
Variable brainMethods : Dataset -> option (gmap string BrainMethod).

(** [Boolean(get(atoms.modal))] *)
Definition isModalActive (s : Snapshot) : bool := bool_decide (is_Some (modal s)).

Definition refresh (s : Snapshot) : option bool := stateDescription s ≫= sd_refresh.

Definition datasetName (s : Snapshot) : option string :=
  (stateDescription s ≫= sd_dataset) ≫= ds_name.

(** [get(atoms.stateDescription)?.datasets ?? []] *)
Definition datasets (s : Snapshot) : list string :=
  default [] (stateDescription s ≫= sd_datasets).

Definition hasDataset (s : Snapshot) : bool := truthy_string (datasetName s).

Definition mediaType (s : Snapshot) : option string :=
  (stateDescription s ≫= sd_dataset) ≫= ds_mediaType.

(** [get(mediaType) === "video"] *)
Definition isVideoDataset (s : Snapshot) : bool :=
  bool_decide (mediaType s = Some "video"%string).

(** [Boolean(get(atoms.stateDescription))] *)
Definition connected (s : Snapshot) : bool :=
  bool_decide (is_Some (stateDescription s)).

(** One write of [set(atoms.tagging({modal, labels}), value)]. *)
Definition set_tagging (m l value : bool) (s : Snapshot) : Snapshot :=
  {| stateDescription := stateDescription s; view := view s;
     viewCls := viewCls s; sampleFields := sampleFields s;
     frameFields := frameFields s; modal := modal s;
     hiddenLabels := hiddenLabels s;
     tagging := fun m' l' =>
       if bool_decide (m' = m /\ l' = l) then value else tagging s m' l';
     teamsSubmitted := teamsSubmitted s;
     stateSubscription := stateSubscription s |}.

(** The pairs that the two nested [[true, false].forEach] go through. *)
Definition tagging_keys : list (bool * bool) :=
  [ (true, true); (true, false); (false, true); (false, false) ].

(** The getter of [anyTagging]: [values.some((v) => v)]. *)
Definition anyTagging_get (s : Snapshot) : bool :=
  existsb (fun v : bool => v) ((fun k => tagging s k.1 k.2) <$> tagging_keys).

(** The setter of [anyTagging]. *)
Definition anyTagging_set (value : bool) (s : Snapshot) : Snapshot :=
  foldl (fun s' k => set_tagging k.1 k.2 value s') s tagging_keys.

(** The selector [hiddenLabelIds]. *)
Definition hiddenLabelIds (s : Snapshot) : gset string := dom (hiddenLabels s).

(** [_id === id && field === fieldName] on the properties [sample_id] and
    [field] of a hidden label. *)
Definition hidden_in (_id fieldName : string) (l : Label) : Prop :=
  l !! "sample_id"%string = Some (JsStr _id) /\
  l !! "field"%string = Some (JsStr fieldName).

Instance hidden_in_dec _id fieldName l : Decision (hidden_in _id fieldName l).
Proof. unfold hidden_in. apply _. Defined.

(** The selector family [hiddenFieldLabels].  Of the modal the snapshot
    keeps the id of its sample, [sample._id]; destructuring a [null] modal
    throws. *)
Definition hiddenFieldLabels (fieldName : string) (s : Snapshot) : Result (list string) :=
  let labels := hiddenLabels s in
  match modal s with
  | None => Throw TypeError
  | Some _id =>
      if truthy_string (Some _id)
      then Ok ((filter (fun kv => hidden_in _id fieldName kv.2) (entries labels)).*1)
      else Ok []
  end.

(** One step of the [reduce] of [similarityKeys]: [push] on one of the two
    arrays. *)
Definition similarity_step (acc : SimilarityKeys) (kv : string * BrainMethod)
    : SimilarityKeys :=
  match patches_field (config kv.2) with
  | Some f =>
      if truthy_string (Some f)
      then {| patches := patches acc ++ [(kv.1, f)]; samples := samples acc |}
      else {| patches := patches acc; samples := samples acc ++ [kv.1] |}
  | None => {| patches := patches acc; samples := samples acc ++ [kv.1] |}
  end.

(** The selector [similarityKeys]. *)
Definition similarityKeys (s : Snapshot) : SimilarityKeys :=
  let state := stateDescription s in
  let brainKeys := default ∅ ((state ≫= sd_dataset) ≫= brainMethods) in
  foldl similarity_step {| patches := []; samples := [] |}
    (filter (fun kv => method (config kv.2) = "similarity"%string) (entries brainKeys)).

(** [http] comes from ../shared/connection. *)
Variable http : string.

(** The selector [showTeamsButton], which reads and clears the legacy flag
    of the local storage; [teams] is [get(fiftyone).teams]. *)
Definition showTeamsButton (teams : Teams) (s : Snapshot) (b : Browser)
    : string * Browser :=
  let localTeams := teamsSubmitted s in
  let storedTeams := localStorage b !! "fiftyone-teams"%string in
  let b' :=
    if truthy_string storedTeams
    then {| localStorage := delete "fiftyone-teams"%string (localStorage b);
            posted := posted b ++ [http +:+ "/teams?submitted=true"] |}
    else b in
  if teams_submitted teams || localTeams.1
     || bool_decide (storedTeams = Some "submitted"%string)
  then ("hidden"%string, b')
  else if teams_minimized teams || localTeams.2
  then ("minimized"%string, b')
  else ("shown"%string, b').
End Selectors.

End Projections.

Module ColorSettings.
Import ViewBar.

(** A pair of [labelColors]: a value of the attribute and its color. *)
Record LabelColor := { lc_name : string; lc_color : option string }.

(** The atom [tempColorSetting]. *)
Record TempColor := {
  tc_field : option string;
  fieldColor : option string;
  attributeForColor : option string;
  attributeForOpacity : option string;
  colors : option (list string);
  labelColors : option (list LabelColor)
}.

Definition with_labelColors (prev : TempColor) (v : option (list LabelColor)) : TempColor :=
  {| tc_field := tc_field prev; fieldColor := fieldColor prev;
     attributeForColor := attributeForColor prev;
     attributeForOpacity := attributeForOpacity prev;
     colors := colors prev; labelColors := v |}.

(** The state of the component [AttributeColorSetting]: the atom, and the
    [showPicker] flags of its rows. *)
Record Rows := { tempColor : TempColor; showPicker : list bool }.

(** [values], the pairs the component renders. *)
Definition values (st : Rows) : option (list LabelColor) := labelColors (tempColor st).

(** [defaultValue]: an empty name and the color the random draw picked in the
    pool, [undefined] when the pool is empty. *)
Definition defaultValue (drawn : option string) : LabelColor :=
  {| lc_name := ""; lc_color := drawn |}.

Definition handleAdd (drawn : option string) (st : Rows) : Rows :=
  let prev := tempColor st in
  {| tempColor :=
       with_labelColors prev
         (Some (match labelColors prev with
                | Some l => l ++ [defaultValue drawn]
                | None => [defaultValue drawn]
                end));
     showPicker := showPicker st ++ [false] |}.

(** [newValues.splice(index, 1)] *)
Definition splice_one {A} (l : list A) (index : Z) : list A :=
  delete (slice_pos l index) l.

Definition handleDelete (index : Z) (st : Rows) : Rows :=
  let newValues := default [] (values st) in
  {| tempColor := with_labelColors (tempColor st) (Some (splice_one newValues index));
     showPicker := showPicker st |}.

(** [prev.map((_, i) => (i === index ? f(_) : _))] *)
Definition map_at {A} (index : Z) (f : A -> A) (l : list A) : list A :=
  imap (fun i x => if bool_decide (Z.of_nat i = index) then f x else x) l.

(** The click on the color square of the row [index]: [!prev[index]] is the
    negation of the flag of that very row. *)
Definition togglePicker (index : Z) (st : Rows) : Rows :=
  {| tempColor := tempColor st; showPicker := map_at index negb (showPicker st) |}.

(** [newValues[index][key] = value], which throws when the row is missing. *)
Inductive PairKey := key_name | key_color.

Definition set_pair (key : PairKey) (value : string) (p : LabelColor) : LabelColor :=
  match key with
  | key_name => {| lc_name := value; lc_color := lc_color p |}
  | key_color => {| lc_name := lc_name p; lc_color := Some value |}
  end.

(** [handleChange] is defined after the component has returned [null] for
    missing [values]. *)
Definition handleChange (index : Z) (key : PairKey) (value : string) (st : Rows)
    : Result Rows :=
  let newValues := default [] (values st) in
  match at_index newValues index with
  | None => Throw TypeError
  | Some p =>
      Ok {| tempColor :=
              with_labelColors (tempColor st)
                (Some (<[Z.to_nat index := set_pair key value p]> newValues));
            showPicker := showPicker st |}
  end.

(** [hanldeColorChange]: [hex] is [color?.hex]. *)
Definition hanldeColorChange (hex : option string) (index : Z) (st : Rows) : Result Rows :=
  let newValues := default [] (labelColors (tempColor st)) in
  match at_index newValues index with
  | None => Throw TypeError
  | Some p =>
      Ok {| tempColor :=
              with_labelColors (tempColor st)
                (Some (<[Z.to_nat index := {| lc_name := lc_name p; lc_color := hex |}]>
                         newValues));
            showPicker := map_at index (fun _ => false) (showPicker st) |}
  end.

(** *** ColorModalContent *)

(** The names of the three checkboxes. *)
Inductive Checkbox := box_attributeForOpacity | box_colors | box_labelColors.

(** The state of the component: the atom and the three checkboxes. *)
Record Modal := {
  setting : TempColor;
  checkbox1 : bool;
  checkbox2 : bool;
  checkbox3 : bool
}.

(** [hasDefaultColorPool]; [pool] is [coloring.pool]. *)
Definition hasDefaultColorPool (pool : list string) (cs : option (list string)) : bool :=
  match cs with
  | None | Some [] => true
  | Some l => bool_decide (foldr String.append "" l = foldr String.append "" pool)
  end.

Definition hasDefaultLabelColor (lcs : option (list LabelColor)) : bool :=
  match lcs with
  | None | Some [] => true
  | Some [p] => bool_decide (lc_name p = ""%string)
  | Some _ => false
  end.

(** [setTempAttributeSetting((prev) => ({...prev, [name]: getDefault(name)}))];
    [drawn] is the color the random draw picked in the palette. *)
Definition reset_to_default (drawn : option string) (name : Checkbox) (prev : TempColor)
    : TempColor :=
  match name with
  | box_attributeForOpacity =>
      {| tc_field := tc_field prev; fieldColor := fieldColor prev;
         attributeForColor := attributeForColor prev;
         attributeForOpacity := None;
         colors := colors prev; labelColors := labelColors prev |}
  | box_colors =>
      {| tc_field := tc_field prev; fieldColor := fieldColor prev;
         attributeForColor := attributeForColor prev;
         attributeForOpacity := attributeForOpacity prev;
         colors := Some []; labelColors := labelColors prev |}
  | box_labelColors =>
      with_labelColors prev (Some [ {| lc_name := ""; lc_color := drawn |} ])
  end.

Definition handleCheckboxChange (drawn : option string) (name : Checkbox)
    (checked : bool) (m : Modal) : Modal :=
  let setting' := if checked then setting m else reset_to_default drawn name (setting m) in
  match name with
  | box_attributeForOpacity =>
      {| setting := setting'; checkbox1 := checked;
         checkbox2 := checkbox2 m; checkbox3 := checkbox3 m |}
  | box_colors =>
      {| setting := setting'; checkbox1 := checkbox1 m;
         checkbox2 := checked; checkbox3 := checkbox3 m |}
  | box_labelColors =>
      {| setting := setting'; checkbox1 := checkbox1 m;
         checkbox2 := checkbox2 m; checkbox3 := checked |}
  end.

(** The branch of the mount effect taken when the saved setting
    [customizeColor] has an attribute for color: the checkboxes are read off
    the saved setting. *)
Definition restore (pool : list string) (customizeColor : TempColor) : Modal :=
  {| setting := customizeColor;
     checkbox1 := Projections.truthy_string (attributeForOpacity customizeColor);
     checkbox2 := negb (hasDefaultColorPool pool (colors customizeColor));
     checkbox3 := negb (hasDefaultLabelColor (labelColors customizeColor)) |}.

End ColorSettings.

(** * Properties *)

(** ** Concrete bars, snapshots and networks used below *)

Module Fixtures.
Import ViewBar.

Definition rt0 : Runtime := {| uuids := 0; spawned := 0; actors := ∅ |}.

Definition catalog0 : Catalog :=
  [ {| name := "match"; params := [] |}; {| name := "limit"; params := [] |} ].

(** What the actor of the first stage submits once the user has picked
    "match" and filled its parameter in. *)
Definition match_stage : Stage :=
  {| id := 0; submitted := true; stage := "match";
     parameters := [("filter", "{}")]%string; stageInfo := Some catalog0;
     index := 0; focusOnInit := false; hideDelete := true |}.

(** A running bar whose only stage is still blank. *)
Definition sole_blank_entry : StageEntry :=
  {| entry := {| id := 0; submitted := false; stage := ""; parameters := [];
                 stageInfo := Some catalog0; index := 0;
                 focusOnInit := false; hideDelete := true |};
     ref := 0 |}.

Definition sole_blank : World :=
  ({| port := Some 5151%N; stages := [sole_blank_entry];
      bar_stageInfo := Some catalog0 |},
   {| uuids := 1; spawned := 1; actors := {[ 0 := entry sole_blank_entry ]} |}).

End Fixtures.

Module SessionFixtures.
Import Session.

Definition label0 : Label :=
  <["labelId" := JsStr "5f1a"]>
    (<["sampleId" := JsStr "61c0"]> (<["field" := JsStr "ground_truth"]> ∅)).

(** The mapping a caller writes: one label, under its id. *)
Definition value0 : gmap string Label := {[ "5f1a"%string := label0 ]}.

(** A snapshot of a session that has a dataset and no label selected. *)
Definition dataset0 : Dataset :=
  {| ds_name := Some "quickstart"%string; ds_mediaType := Some "image"%string;
     defaultMaskTargets := Some {[ "1"%string := "road"%string ]};
     maskTargets := Some {[ "segmentation"%string := {[ "1"%string := "sky"%string ]} ]} |}.

Definition state0 : StateDescription :=
  {| sd_dataset := Some dataset0; sd_selectedLabels := None;
     sd_selected_labels := None; sd_refresh := None;
     sd_activeHandle := None; sd_datasets := Some ["quickstart"%string] |}.

Definition snapshot0 : RootSnapshot string :=
  {| stateDescription := Some state0; view := []; viewCls := None;
     sampleFields := []; frameFields := []; modal := None; hiddenLabels := ∅;
     tagging := fun _ _ => false; teamsSubmitted := (false, false);
     stateSubscription := "sub" |}.

End SessionFixtures.

Module MoreFixtures.
Import ViewBar Fixtures.

(** A stage that is in no bar: no [uuid()] call has produced its id. *)
Definition unknown_stage : Stage :=
  {| id := 77; submitted := false; stage := "limit"; parameters := [];
     stageInfo := Some catalog0; index := 0; focusOnInit := false;
     hideDelete := false |}.

(** A second label, and a label that has the id of [label0] again. *)
Definition label1 : Session.Label :=
  <["labelId" := Session.JsStr "7b2c"]>
    (<["sampleId" := Session.JsStr "61c0"]> (<["field" := Session.JsStr "predictions"]> ∅)).

Definition label0_again : Session.Label :=
  <["labelId" := Session.JsStr "5f1a"]>
    (<["sampleId" := Session.JsStr "61c0"]> (<["field" := Session.JsStr "predictions"]> ∅)).

(** Two labels whose ids make the same property key: the number 1e21 and
    the string "1e+21". *)
Definition label_1e21 : Session.Label :=
  <["labelId" := Session.JsNum (10 ^ 21)]>
    (<["sampleId" := Session.JsStr "61c0"]> (<["field" := Session.JsStr "ground_truth"]> ∅)).

Definition label_1e21_string : Session.Label :=
  <["labelId" := Session.JsStr "1e+21"]>
    (<["sampleId" := Session.JsStr "61c0"]> (<["field" := Session.JsStr "predictions"]> ∅)).

Definition with_selectedLabels (labels : list Session.Label) : Session.RootSnapshot string :=
  Session.set_stateDescription
    (Some {| Session.sd_dataset := Some SessionFixtures.dataset0;
             Session.sd_selectedLabels := Some labels;
             Session.sd_selected_labels := None; Session.sd_refresh := None;
             Session.sd_activeHandle := None; Session.sd_datasets := None |})
    SessionFixtures.snapshot0.

(** A session that has not received its state description yet. *)
Definition snapshot_offline : Session.RootSnapshot string :=
  Session.set_stateDescription None SessionFixtures.snapshot0.

(** The rows of a color setting with two pairs, the picker of the second
    one open. *)
Definition two_rows : ColorSettings.Rows :=
  {| ColorSettings.tempColor :=
       {| ColorSettings.tc_field := Some "ground_truth"%string;
          ColorSettings.fieldColor := None;
          ColorSettings.attributeForColor := Some "label"%string;
          ColorSettings.attributeForOpacity := None;
          ColorSettings.colors := Some [];
          ColorSettings.labelColors :=
            Some [ {| ColorSettings.lc_name := "car";
                      ColorSettings.lc_color := Some "#ee0000"%string |};
                   {| ColorSettings.lc_name := "tree";
                      ColorSettings.lc_color := Some "#00ee00"%string |} ] |};
     ColorSettings.showPicker := [false; true] |}.

End MoreFixtures.

Module ViewBarProps.
Import ViewBar Fixtures.

Implicit Types (w : World) (s : Stage) (e : StageEntry) (rt : Runtime).

(** *** The running entry action *)

Lemma materialize_ok info l : forall i rt,
  exists l' rt', materialize info i l rt = Ok (l', rt') /\
    length l' = length l /\
    (forall k e, l' !! k = Some e -> index (entry e) = Z.of_nat (i + k)).
Proof.
  induction l as [|x l IH]; intros i rt.
  - exists [], rt. split; [reflexivity|]. split; [reflexivity|].
    intros k e Hk. by rewrite lookup_nil in Hk.
  - cbn [materialize]. unfold ViewBar.bind at 1. cbn.
    match goal with |- context [materialize info (S i) l] =>
      match goal with |- context [ViewBar.bind _ _ ?r] =>
        destruct (IH (S i) r) as (l' & rt' & Hm & Hlen & Hidx) end end.
    unfold ViewBar.bind at 1. rewrite Hm. cbn.
    eexists _, _. split; [reflexivity|]. split; [cbn; by rewrite Hlen|].
    intros [|k] e Hk; cbn in Hk.
    + inversion Hk; subst; cbn. f_equal. lia.
    + rewrite (Hidx _ _ Hk). f_equal. lia.
Qed.

(** The entry action numbers the stages by position. *)
Lemma running_entry_indexed ctx rt :
  exists w, running_entry ctx rt = Ok w /\
    forall k e, stages w.1 !! k = Some e -> index (entry e) = Z.of_nat k.
Proof.
  unfold running_entry, ViewBar.bind.
  destruct (materialize_ok (bar_stageInfo ctx) (stages ctx) 0 rt)
    as (l' & rt' & Hm & _ & Hidx).
  rewrite Hm. cbn. eexists. split; [reflexivity|]. exact Hidx.
Qed.

(** C6: a bar built with no stage, once the descriptor fetch has succeeded
    and the machine has entered [running], holds exactly one stage: blank, at
    index 0, with [focusOnInit = false] and [hideDelete = true], and with the
    fetched catalog as its [stageInfo]; its actor has the same context. *)
Theorem enter_running_seeds_blank_stage (ctx : Bar string) data_stages rt :
  stages ctx = [] ->
  exists w s r,
    enter_running ctx data_stages rt = Ok w /\
    stages w.1 = [ {| entry := s; ref := r |} ] /\
    blank s /\ index s = 0%Z /\ focusOnInit s = false /\ hideDelete s = true /\
    stageInfo s = Some data_stages /\
    bar_stageInfo w.1 = Some data_stages /\
    actors w.2 !! r = Some s.
Proof.
  intros Hempty. unfold enter_running, onDone. rewrite Hempty.
  eexists _, _, _. split; [reflexivity|]. cbn.
  repeat split; try reflexivity. apply lookup_insert_eq.
Qed.

Lemma enter_running_seeds_blank_stage_witness :
  stages (createBar 5151) = [] /\
  exists w s r,
    enter_running (createBar 5151) catalog0 rt0 = Ok w /\
    stages w.1 = [ {| entry := s; ref := r |} ] /\
    blank s /\ index s = 0%Z /\ focusOnInit s = false /\ hideDelete s = true /\
    stageInfo s = Some catalog0 /\
    bar_stageInfo w.1 = Some catalog0 /\
    actors w.2 !! r = Some s.
Proof.
  split; [reflexivity|].
  apply (enter_running_seeds_blank_stage (createBar 5151) catalog0 rt0).
  reflexivity.
Defined.

(** A bar built with stages never gets to [running]: the transition throws. *)
Lemma enter_running_nonempty_throws (ctx : Bar string) data_stages rt :
  stages ctx <> [] -> enter_running ctx data_stages rt = Throw ReferenceError.
Proof.
  intros Hne. unfold enter_running, onDone.
  destruct (stages ctx); [done | reflexivity].
Qed.

(** *** STAGE.COMMIT *)

Lemma at_index_valid {A} (l : list A) (k : Z) :
  (0 <= k < Z.of_nat (length l))%Z ->
  exists x, at_index l k = Some x /\ l !! Z.to_nat k = Some x.
Proof.
  intros Hk. unfold at_index.
  destruct (Z.ltb_spec k 0) as [?|_]; [lia|].
  destruct (lookup_lt_is_Some_2 l (Z.to_nat k)) as [x Hx]; [lia|].
  exists x. by rewrite Hx.
Qed.

(** C5: on [STAGE.COMMIT {stage}] with [stage.index] a position of the
    list, the entry at that position gets the submitted data and keeps the
    actor reference it had; every other entry, the length of the list and
    the actors are unchanged. *)
Theorem commit_replaces_data_keeps_ref w s :
  (0 <= index s < Z.of_nat (length (stages w.1)))%Z ->
  exists w' old,
    at_index (stages w.1) (index s) = Some old /\
    transition w (STAGE_COMMIT s) = Ok w' /\
    at_index (stages w'.1) (index s) = Some {| entry := s; ref := ref old |} /\
    (forall k, k <> index s -> at_index (stages w'.1) k = at_index (stages w.1) k) /\
    length (stages w'.1) = length (stages w.1) /\
    w'.2 = w.2.
Proof.
  intros Hk. destruct w as [ctx rt]. cbn in *.
  destruct (at_index_valid (stages ctx) (index s) Hk) as (old & Hat & Hold).
  exists (with_stages ctx
            (<[Z.to_nat (index s) := {| entry := s; ref := ref old |}]> (stages ctx)), rt), old.
  split; [exact Hat|].
  split.
  { unfold transition, handle, assign_STAGE_COMMIT. cbn. by rewrite Hat. }
  cbn. split.
  { unfold at_index. destruct (Z.ltb_spec (index s) 0) as [?|_]; [lia|].
    apply list_lookup_insert_eq. lia. }
  split.
  { intros k Hne. unfold at_index. destruct (Z.ltb_spec k 0) as [?|?]; [done|].
    apply list_lookup_insert_ne. lia. }
  split; [apply length_insert | reflexivity].
Qed.

Lemma commit_replaces_data_keeps_ref_witness :
  (0 <= index match_stage < Z.of_nat (length (stages sole_blank.1)))%Z /\
  exists w' old,
    at_index (stages sole_blank.1) (index match_stage) = Some old /\
    transition sole_blank (STAGE_COMMIT match_stage) = Ok w' /\
    at_index (stages w'.1) (index match_stage)
      = Some {| entry := match_stage; ref := ref old |} /\
    (forall k, k <> index match_stage ->
       at_index (stages w'.1) k = at_index (stages sole_blank.1) k) /\
    length (stages w'.1) = length (stages sole_blank.1) /\
    w'.2 = sole_blank.2.
Proof.
  split; [cbn; lia|].
  apply (commit_replaces_data_keeps_ref sole_blank match_stage). cbn. lia.
Defined.

(** A commit at a position the list does not have throws. *)
Lemma commit_out_of_range_throws w s :
  ~ (0 <= index s < Z.of_nat (length (stages w.1)))%Z ->
  transition w (STAGE_COMMIT s) = Throw TypeError.
Proof.
  intros Hk. destruct w as [ctx rt].
  unfold transition, handle, assign_STAGE_COMMIT, at_index. cbn in *.
  destruct (Z.ltb_spec (index s) 0) as [?|?]; [reflexivity|].
  rewrite (lookup_ge_None_2 (stages ctx) (Z.to_nat (index s))); [reflexivity | lia].
Qed.

(** *** STAGE.DELETE on a bar of one stage *)

Lemma blank_set_hideDelete h s : blank (set_hideDelete h s) <-> blank s.
Proof. reflexivity. Qed.

(** C3, as the code has it: on a bar of exactly one stage STAGE.DELETE keeps
    the list at length 1; the entry becomes the stage of the event with
    [hideDelete] forced to [true] and the actor reference of position 0
    kept, so it is blank exactly when the stage of the event is; nothing is
    spawned and no actor context changes. *)
Theorem delete_sole_stage_resets w s e0 :
  stages w.1 = [e0] ->
  exists w' e',
    transition w (STAGE_DELETE s) = Ok w' /\
    stages w'.1 = [e'] /\
    entry e' = set_hideDelete true s /\
    hideDelete (entry e') = true /\
    ref e' = ref e0 /\
    (blank (entry e') <-> blank s) /\
    w'.2 = w.2.
Proof.
  intros Hone. destruct w as [ctx rt]. cbn in *.
  eexists (_, _), _. split.
  { unfold transition, handle, assign_STAGE_DELETE. cbn. rewrite Hone.
    unfold ViewBar.bind. cbn. reflexivity. }
  cbn. split; [reflexivity|]. split; [reflexivity|]. split; [reflexivity|].
  split; [reflexivity|]. split; [apply blank_set_hideDelete | reflexivity].
Qed.

Lemma delete_sole_stage_resets_witness :
  stages sole_blank.1 = [sole_blank_entry] /\
  exists w' e',
    transition sole_blank (STAGE_DELETE match_stage) = Ok w' /\
    stages w'.1 = [e'] /\
    entry e' = set_hideDelete true match_stage /\
    hideDelete (entry e') = true /\
    ref e' = ref sole_blank_entry /\
    (blank (entry e') <-> blank match_stage) /\
    w'.2 = sole_blank.2.
Proof.
  split; [reflexivity|].
  apply (delete_sole_stage_resets sole_blank match_stage sole_blank_entry).
  reflexivity.
Defined.

(** C3, as stated, fails: the bar enters [running] with its blank stage, the
    stage is committed as "match", and STAGE.DELETE with that stage leaves
    one stage which is still "match", not a blank one. *)
Lemma delete_sole_stage_not_blank :
  exists w0 w1 w2 e,
    enter_running (createBar 5151) catalog0 rt0 = Ok w0 /\
    transition w0 (STAGE_COMMIT match_stage) = Ok w1 /\
    length (stages w1.1) = 1 /\
    transition w1 (STAGE_DELETE match_stage) = Ok w2 /\
    stages w2.1 = [e] /\
    stage (entry e) = "match"%string /\
    ~ blank (entry e).
Proof.
  eexists (_, _), (_, _), (_, _), _.
  split; [reflexivity|]. split; [reflexivity|]. split; [reflexivity|].
  split; [reflexivity|]. split; [reflexivity|]. split; [reflexivity|].
  intros (Hstage & _). discriminate Hstage.
Qed.

(** *** STAGE.ADD and the [index] fields *)

(** C1 fails on the code: from the one-stage bar that [running] starts
    with, [STAGE.ADD {index: 0}] puts the new stage at position 0 with index
    0 and moves the old stage to position 1, where its [index] is still 0,
    in the list as in the context of its actor. *)
Theorem add_leaves_index_stale :
  exists w0 w1 e0 e1,
    enter_running (createBar 5151) catalog0 rt0 = Ok w0 /\
    indexed w0 /\
    transition w0 (STAGE_ADD 0) = Ok w1 /\
    stages w1.1 = [e0; e1] /\
    index (entry e0) = 0%Z /\
    index (entry e1) = 0%Z /\
    index <$> actors w1.2 !! ref e1 = Some 0%Z /\
    ~ indexed w1.
Proof.
  eexists (_, _), (_, _), _, _.
  split; [reflexivity|].
  split.
  { intros [|[|k]] e Hk; cbn in Hk; try done. by inversion Hk. }
  split; [reflexivity|]. split; [reflexivity|].
  split; [reflexivity|]. split; [reflexivity|]. split; [reflexivity|].
  intros Hidx. specialize (Hidx 1 _ eq_refl). cbn in Hidx. discriminate Hidx.
Qed.

(** *** The delete affordance of the first stage *)

Lemma bind_Ok_inv {A B} (m : Eff A) (k : A -> Eff B) rt b rt2 :
  ViewBar.bind m k rt = Ok (b, rt2) ->
  exists a rt1, m rt = Ok (a, rt1) /\ k a rt1 = Ok (b, rt2).
Proof.
  unfold ViewBar.bind. destruct (m rt) as [[a rt1]|err]; [|discriminate].
  intros H. by exists a, rt1.
Qed.

Lemma reachable_after w ev : reachable w -> reachable (after w ev).
Proof.
  intros Hr. unfold after. destruct (transition w ev) as [w'|err] eqn:Ht.
  - eapply reachable_step; eauto.
  - exact Hr.
Qed.

Lemma reachable_sole_blank : reachable sole_blank.
Proof. apply (reachable_entry (createBar 5151) catalog0 rt0). reflexivity. Qed.

(** No event changes the context of an actor that exists: the only write
    to the actors is the [spawn] of STAGE.ADD, at a reference not handed
    out before. *)
Lemma transition_keeps_actor_contexts w ev w' (r : ActorRef) :
  transition w ev = Ok w' ->
  r <> spawned w.2 ->
  actors w'.2 !! r = actors w.2 !! r.
Proof.
  destruct w as [ctx rt], w' as [ctx' rt']. unfold transition, handle.
  cbn [fst snd]. intros Ht Hr. destruct ev as [k|s|s].
  - apply bind_Ok_inv in Ht as (ctx1 & rt1 & Hassign & Ht).
    apply bind_Ok_inv in Ht as ([] & rt2 & Hsend & Ht).
    injection Ht as _ ->.
    unfold send_to_first, send_SET_HIDE_DELETE in Hsend.
    destruct (stages ctx1); [discriminate|]. injection Hsend as <-.
    unfold assign_STAGE_ADD in Hassign. cbn in Hassign.
    injection Hassign as _ <-. cbn. by rewrite lookup_insert_ne.
  - unfold assign_STAGE_COMMIT in Ht.
    destruct (at_index (stages ctx) (index s)); [|discriminate].
    by injection Ht as _ <-.
  - apply bind_Ok_inv in Ht as (ctx1 & rt1 & Hassign & Ht).
    apply bind_Ok_inv in Ht as ([] & rt2 & Hsend & Ht).
    injection Ht as _ ->.
    unfold send_to_first, send_SET_HIDE_DELETE in Hsend.
    destruct (stages ctx1); [discriminate|]. injection Hsend as <-.
    unfold assign_STAGE_DELETE in Hassign.
    by destruct (stages ctx) as [|x0 [|x1 xs]]; injection Hassign as _ <-.
Qed.

(** C2 fails on the code.  Both [send] actions give the target as the
    property [to] of the event and not as an option of [send], so the
    STAGE.SET_HIDE_DELETE event goes to the bar, which has no transition for
    it, and the flag of no stage is changed.  From the one-stage bar that
    [running] starts with: after [STAGE.ADD {index: 1}] the bar has two
    stages and [hideDelete] of the first is still [true]; after [STAGE.ADD
    {index: 0}] and STAGE.DELETE of the old stage the bar has one stage, the
    one STAGE.ADD created, and its [hideDelete] is still [false].  This
    holds of the field in the list as of the context of the actor. *)
Theorem first_stage_hideDelete_not_kept :
  exists w0 w1 w2 w3 old new new',
    enter_running (createBar 5151) catalog0 rt0 = Ok w0 /\
    stages w0.1 = [old] /\
    transition w0 (STAGE_ADD 1) = Ok w1 /\
    stages w1.1 = [old; new] /\
    hideDelete (entry old) = true /\
    actor_hideDelete w1 old = Some true /\
    transition w0 (STAGE_ADD 0) = Ok w2 /\
    stages w2.1 = [new'; old] /\
    transition w2 (STAGE_DELETE (entry old)) = Ok w3 /\
    stages w3.1 = [new'] /\
    hideDelete (entry new') = false /\
    actor_hideDelete w3 new' = Some false /\
    reachable w1 /\ reachable w3.
Proof.
  eexists (_, _), (_, _), (_, _), (_, _), _, _, _.
  split; [reflexivity|]. split; [reflexivity|]. split; [reflexivity|].
  split; [reflexivity|]. split; [reflexivity|]. split; [reflexivity|].
  split; [reflexivity|]. split; [reflexivity|]. split; [reflexivity|].
  split; [reflexivity|]. split; [reflexivity|]. split; [reflexivity|].
  assert (H0 : reachable sole_blank) by apply reachable_sole_blank.
  split.
  - by apply (reachable_step sole_blank (STAGE_ADD 1)).
  - apply (reachable_step (after sole_blank (STAGE_ADD 0))
             (STAGE_DELETE (entry sole_blank_entry))); [|reflexivity].
    by apply (reachable_step sole_blank (STAGE_ADD 0)).
Qed.

(** STAGE.DELETE leaves the [index] fields alone as well. *)
Lemma delete_leaves_index_stale :
  exists e1,
    stages (after (after sole_blank (STAGE_ADD 1)) (STAGE_DELETE (entry sole_blank_entry))).1
      = [e1] /\
    index (entry e1) = 1%Z.
Proof. eexists. split; reflexivity. Qed.

(** *** The examples of the specification *)

Example add_at_front_of_one_stage :
  exists e0 e1,
    stages (after sole_blank (STAGE_ADD 0)).1 = [e0; e1] /\
    blank (entry e0) /\ index (entry e0) = 0%Z /\
    focusOnInit (entry e0) = true /\ hideDelete (entry e0) = false /\
    e1 = sole_blank_entry /\
    actor_hideDelete (after sole_blank (STAGE_ADD 0)) e1 = Some true /\
    actor_hideDelete (after sole_blank (STAGE_ADD 0)) e0 = Some false.
Proof.
  eexists _, _. split; [reflexivity|].
  repeat split; reflexivity.
Qed.

Example delete_second_of_two_stages :
  exists e0 e1 e,
    stages (after sole_blank (STAGE_ADD 1)).1 = [e0; e1] /\
    stages (after (after sole_blank (STAGE_ADD 1)) (STAGE_DELETE (entry e1))).1 = [e] /\
    ref e = ref e0 /\
    actor_hideDelete
      (after (after sole_blank (STAGE_ADD 1)) (STAGE_DELETE (entry e1))) e = Some true.
Proof.
  eexists _, _, _. split; [reflexivity|]. split; [reflexivity|].
  split; reflexivity.
Qed.

End ViewBarProps.

Module SessionProps.
Import Session SessionFixtures.

(** *** useSetView *)

Section UseSetView.
Context {StrField Field : Type} (collapseFields : list StrField -> list Field).

(** C7: the success handler of the commit mutation sets [view],
    [viewCls], [sampleFields] and [frameFields] (the two schemas through
    [collapseFields]) and no other atom, and it commits them as one
    snapshot: what a reader can observe afterwards is what it could
    observe before, or the snapshot with all four updated. *)
Theorem onCompleted_sets_four_atoms (r : SetViewResponse) (st : Store Field) :
  let st' := onCompleted collapseFields r st in
  (view (current st') = r_view r /\
   viewCls (current st') = r_viewCls r /\
   sampleFields (current st') = collapseFields (r_sampleFields r) /\
   frameFields (current st') = collapseFields (r_frameFields r)) /\
  (stateDescription (current st') = stateDescription (current st) /\
   modal (current st') = modal (current st) /\
   hiddenLabels (current st') = hiddenLabels (current st) /\
   tagging (current st') = tagging (current st) /\
   teamsSubmitted (current st') = teamsSubmitted (current st) /\
   stateSubscription (current st') = stateSubscription (current st)) /\
  observable st' = current st' :: observable st /\
  (forall s, s ∈ observable st' -> s ∈ observable st \/ s = current st').
Proof.
  cbn. split; [by repeat split|]. split; [by repeat split|].
  split; [reflexivity|].
  intros s Hs. apply elem_of_cons in Hs as [->|Hs]; [by right | by left].
Qed.
End UseSetView.

(** *** getTarget *)

Section Selectors.
Context {Field : Type}.
Implicit Types (s : RootSnapshot Field).

Lemma targets_throws_without_state s :
  stateDescription s = None -> getTarget s = Throw TypeError.
Proof. intros H. unfold getTarget, targets. by rewrite H. Qed.



(** *** selectedLabels *)

(** C10: when the state description is absent, or has no selected-labels
    sequence, reading [selectedLabels] does not throw and gives the empty
    mapping, and [selectedLabelIds] gives the empty set. *)
Theorem selectedLabels_default_empty s :
  (stateDescription s = None \/
   exists sd, stateDescription s = Some sd /\ sd_selectedLabels sd = None) ->
  selectedLabels_get s = Ok ∅ /\ selectedLabelIds s = Ok ∅.
Proof.
  intros Habsent. unfold selectedLabelIds, selectedLabels_get.
  assert (stateDescription s ≫= sd_selectedLabels = None) as ->.
  { destruct Habsent as [->|(sd & -> & Hsd)]; [reflexivity | exact Hsd]. }
  cbn. split; [reflexivity|]. by rewrite dom_empty_L.
Qed.

(** What the setter writes is not what the getter reads: the getter's
    answer is the same before and after any write. *)
Lemma selectedLabels_set_unseen (value : gmap string Label) s socket :
  selectedLabels_get (selectedLabels_set value s socket).1 = selectedLabels_get s.
Proof.
  unfold selectedLabels_get, selectedLabels_set. cbn.
  by destruct (stateDescription s).
Qed.

(** The setter sends the serialized labels over the socket. *)
Lemma selectedLabels_set_sends (value : gmap string Label) s socket :
  exists labels,
    (selectedLabels_set value s socket).2
      = socket ++ [packageMessage "set_selected_labels" labels] /\
    (stateDescription (selectedLabels_set value s socket).1
       ≫= sd_selected_labels) = Some labels /\
    length labels = size value.
Proof.
  eexists. split; [reflexivity|]. split; [reflexivity|].
  unfold entries. by rewrite length_fmap, length_map_to_list.
Qed.
End Selectors.

(** *** getTarget on a session with a dataset *)



Lemma selectedLabels_default_empty_witness :
  (stateDescription snapshot0 = None \/
   exists sd, stateDescription snapshot0 = Some sd /\ sd_selectedLabels sd = None) /\
  selectedLabels_get snapshot0 = Ok ∅ /\ selectedLabelIds snapshot0 = Ok ∅.
Proof.
  assert (H : stateDescription snapshot0 = None \/
    exists sd, stateDescription snapshot0 = Some sd /\ sd_selectedLabels sd = None).
  { right. exists state0. split; reflexivity. }
  split; [exact H|].
  apply (selectedLabels_default_empty snapshot0 H).
Defined.

(** C4 fails on the code: on a session with no label selected, writing the
    mapping [value0] (one label) through the setter stores the labels under
    [selected_labels], where the getter, which reads [selectedLabels], does
    not look: reading back gives the empty mapping, not [value0]. *)
Theorem selectedLabels_not_read_back :
  let written := (selectedLabels_set value0 snapshot0 []).1 in
  dom value0 = {[ "5f1a"%string ]} /\
  selectedLabels_get written = Ok ∅ /\
  selectedLabels_get written <> Ok value0 /\
  (stateDescription written ≫= sd_selectedLabels) = None /\
  (stateDescription written ≫= sd_selected_labels)
    = Some [ <["label_id" := JsStr "5f1a"]> label0 ].
Proof.
  cbn zeta. split; [apply dom_singleton_L|].
  split; [reflexivity|]. split.
  { rewrite selectedLabels_set_unseen. cbn. intros H.
    apply (f_equal (fun r => match r with
                             | Ok m => m !! "5f1a"%string
                             | Throw _ => None
                             end)) in H.
    vm_compute in H. discriminate H. }
  split; [reflexivity|].
  vm_compute. reflexivity.
Qed.

End SessionProps.

Module PollingProps.
Import Polling.

Section Fiftyone.
Variable http : string.

(** A request: the loop goes on with what the network replies. *)
Lemma run_fetch fuel n :
  run (S fuel) (fiftyone http) n
  = run fuel
      (ITree.bind (after_fetch JNull (replies n (requests n)))
         (fun lr => match lr with
                    | inl l => Tau (ITree.iter (attempt http) l)
                    | inr v => Ret v
                    end))
      {| replies := replies n; requests := S (requests n); waited := waited n |}.
Proof. destruct fuel; reflexivity. Qed.

(** One turn that ends with [response] still [null]: a request, the
    timer, and back to the head of the loop. *)
Lemma run_turn_null fuel n :
  null_reply (replies n (requests n)) = true ->
  run (S (S (S fuel))) (fiftyone http) n
    = run fuel (fiftyone http) (advance n 2000).
Proof.
  intros Hnull. rewrite run_fetch.
  destruct (replies n (requests n)) as [[]|]; try discriminate Hnull;
    reflexivity.
Qed.

(** One turn that gets a value other than [null]. *)
Lemma run_turn_value fuel n v :
  replies n (requests n) = Some v ->
  is_null v = false ->
  run (S (S (S fuel))) (fiftyone http) n
    = Some (v, advance n (if truthy v then 0 else 2000)).
Proof.
  intros Hv Hnn. rewrite run_fetch, Hv. unfold after_fetch. cbn [from_option].
  destruct (truthy v) eqn:Ht.
  - cbn. unfold advance. by rewrite N.add_0_r.
  - cbn. rewrite Hnn. reflexivity.
Qed.

(** After [k] null replies and a value, the loop returns the value. *)
Lemma run_returns_value k : forall n v fuel,
  null_until (replies n) (requests n) k ->
  replies n (requests n + k) = Some v ->
  is_null v = false ->
  run (3 * k + 3 + fuel) (fiftyone http) n = Some (v, settled_with n k v).
Proof.
  induction k as [|k IH]; intros n v fuel Hnull Hv Hnn.
  - rewrite Nat.add_0_r in Hv. cbn [Nat.mul Nat.add].
    rewrite (run_turn_value fuel n v Hv Hnn).
    same_net.
  - replace (3 * S k + 3 + fuel) with (S (S (S (3 * k + 3 + fuel)))) by lia.
    rewrite run_turn_null.
    2:{ specialize (Hnull 0 ltac:(lia)). by rewrite Nat.add_0_r in Hnull. }
    rewrite (IH (advance n 2000) v fuel).
    + same_net.
    + intros i Hi. cbn.
      match goal with |- null_reply (replies n ?a) = true =>
        replace a with (requests n + S i) by lia end.
      apply Hnull. lia.
    + cbn.
      match goal with |- replies n ?a = _ =>
        by replace a with (requests n + S k) by lia end.
    + exact Hnn.
Qed.

(** The loop does not return before a value has come. *)
Lemma run_returns_only_value fuel : forall n v n',
  run fuel (fiftyone http) n = Some (v, n') ->
  exists k,
    null_until (replies n) (requests n) k /\
    replies n (requests n + k) = Some v /\
    is_null v = false /\
    n' = settled_with n k v.
Proof.
  induction fuel as [fuel IH] using lt_wf_ind. intros n v n' Hrun.
  destruct fuel as [|fuel]; [discriminate Hrun|].
  destruct (null_reply (replies n (requests n))) eqn:Hnull.
  - destruct fuel as [|[|fuel]].
    + rewrite run_fetch in Hrun. discriminate Hrun.
    + rewrite run_fetch in Hrun.
      destruct (replies n (requests n)) as [[]|]; discriminate.
    + rewrite run_turn_null in Hrun by exact Hnull.
      apply IH in Hrun as (k & Hk & Hv & Hnn & ->); [|lia].
      exists (S k). unfold advance in Hk, Hv. cbn [replies requests] in Hk, Hv.
      split; [|split; [|split]].
      * intros [|i] Hi; [by rewrite Nat.add_0_r|].
        replace (requests n + S i) with (S (requests n) + i) by lia.
        apply Hk. lia.
      * by replace (requests n + S k) with (S (requests n) + k) by lia.
      * exact Hnn.
      * same_net.
  - destruct (replies n (requests n)) as [w|] eqn:Hw; [|discriminate Hnull].
    assert (Hnn : is_null w = false) by (by destruct w).
    assert (Hret : v = w /\ n' = settled_with n 0 w).
    { destruct fuel as [|[|fuel]].
      - rewrite run_fetch in Hrun. discriminate Hrun.
      - rewrite run_fetch, Hw in Hrun. unfold after_fetch in Hrun.
        cbn [from_option] in Hrun.
        destruct (truthy w) eqn:Ht; cbn in Hrun; [|discriminate Hrun].
        injection Hrun as <- <-. split; [reflexivity|].
        unfold settled_with. rewrite Ht. f_equal; lia.
      - rewrite (run_turn_value fuel n w Hw Hnn) in Hrun.
        injection Hrun as <- <-. split; [reflexivity|].
        same_net. }
    destruct Hret as [-> ->]. exists 0.
    split; [intros i Hi; lia|]. rewrite Nat.add_0_r. by split.
Qed.

(** C8: against any network, the selector
    - returns the first reply that is not null, whatever the number [k] of
      failed or null replies before it, having made one request per reply
      and waited 2000 ms after each of the [k] null ones;
    - returns nothing else: when it returns, the value is not [null], it
      is the reply to its last request, and every request before got a
      null reply and was followed by a wait of 2000 ms. *)
Theorem fiftyone_polls_until_value (r : nat -> option Json) :
  (forall k v,
      null_until r 0 k -> r k = Some v -> is_null v = false ->
      exists fuel n',
        run fuel (fiftyone http) (fresh r) = Some (v, n') /\
        requests n' = S k /\
        waited n' = (2000 * N.of_nat k + (if truthy v then 0 else 2000))%N) /\
  (forall fuel v n',
      run fuel (fiftyone http) (fresh r) = Some (v, n') ->
      v <> JNull /\
      exists k,
        null_until r 0 k /\ r k = Some v /\
        requests n' = S k /\
        (2000 * N.of_nat k <= waited n')%N).
Proof.
  split.
  - intros k v Hnull Hv Hnn.
    exists (3 * k + 3 + 0), (settled_with (fresh r) k v).
    split; [by apply run_returns_value|]. cbn. split; lia.
  - intros fuel v n' Hrun.
    apply run_returns_only_value in Hrun as (k & Hk & Hv & Hnn & ->).
    split; [by intros ->|].
    exists k. cbn in *. repeat split; try done; lia.
Qed.
End Fiftyone.

(** *** Runs against concrete networks *)

(** Two failed requests, then the body [0]: returned after three requests
    and three waits, the last one because [0] is falsy. *)
Example fiftyone_run_falsy :
  run 9 (fiftyone "http://localhost:5151")
      (fresh (fun i => if decide (i = 2) then Some (JNumber 0) else None))
  = Some (JNumber 0,
          {| replies := fun i => if decide (i = 2) then Some (JNumber 0) else None;
             requests := 3; waited := 6000 |}).
Proof. reflexivity. Qed.

(** Two [null] bodies, then an object: returned at once. *)
Example fiftyone_run_object :
  run 9 (fiftyone "http://localhost:5151")
      (fresh (fun i => if decide (i = 2) then Some (JObject []) else Some JNull))
  = Some (JObject [],
          {| replies := fun i => if decide (i = 2) then Some (JObject []) else Some JNull;
             requests := 3; waited := 4000 |}).
Proof. reflexivity. Qed.

(** A network that never answers: no return, however long the run. *)
Lemma fiftyone_never_returns_on_failures http fuel :
  run fuel (fiftyone http) (fresh (fun _ => None)) = None.
Proof.
  destruct (run fuel (fiftyone http) (fresh (fun _ => None))) as [[v n']|] eqn:Hrun;
    [|reflexivity].
  apply run_returns_only_value in Hrun as (k & _ & Hv & _). discriminate Hv.
Qed.

End PollingProps.

(** * More of the view bar *)

Module ViewBarMore.
Import ViewBar Fixtures MoreFixtures.

Implicit Types (w : World) (s : Stage) (e : StageEntry) (rt : Runtime).

Lemma slice_pos_le {A} (l : list A) k : slice_pos l k <= length l.
Proof. unfold slice_pos. destruct (Z.ltb_spec k 0); lia. Qed.

Lemma slice_pos_in_range {A} (l : list A) k :
  (0 <= k <= Z.of_nat (length l))%Z -> Z.of_nat (slice_pos l k) = k.
Proof. intros Hk. unfold slice_pos. destruct (Z.ltb_spec k 0); lia. Qed.

(** The stage [STAGE.ADD {index}] creates. *)
Lemma transition_ADD ctx rt k :
  exists rt',
    transition (ctx, rt) (STAGE_ADD k)
    = Ok (with_stages ctx
            (slice_to (stages ctx) k
               ++ {| entry := {| id := uuids rt; submitted := false; stage := "";
                                 parameters := []; stageInfo := bar_stageInfo ctx;
                                 index := k; focusOnInit := true; hideDelete := false |};
                     ref := spawned rt |}
               :: slice_from (stages ctx) k), rt') /\
    uuids rt' = S (uuids rt) /\ spawned rt' = S (spawned rt).
Proof.
  unfold transition, handle, assign_STAGE_ADD. cbn.
  unfold ViewBar.bind at 1. cbn. unfold send_to_first. cbn.
  destruct (slice_to (stages ctx) k); cbn; eexists; split; reflexivity || done.
Qed.

(** X1: STAGE.ADD never throws, whatever the index: the list grows by exactly
    one stage, which is blank, focused and deletable, carries the index of
    the event and the catalog of the bar, and stands at the position [slice]
    clamps the index to (the index itself when it is between 0 and the
    length); the stages before it stay where they were and the others move
    up by one. *)
Theorem add_inserts_one_stage w k :
  exists w' new,
    transition w (STAGE_ADD k) = Ok w' /\
    length (stages w'.1) = S (length (stages w.1)) /\
    stages w'.1 !! slice_pos (stages w.1) k = Some new /\
    blank (entry new) /\ index (entry new) = k /\
    focusOnInit (entry new) = true /\ hideDelete (entry new) = false /\
    stageInfo (entry new) = bar_stageInfo w.1 /\
    (forall j, j < slice_pos (stages w.1) k -> stages w'.1 !! j = stages w.1 !! j) /\
    (forall j, slice_pos (stages w.1) k <= j -> stages w'.1 !! S j = stages w.1 !! j) /\
    ((0 <= k <= Z.of_nat (length (stages w.1)))%Z ->
     Z.of_nat (slice_pos (stages w.1) k) = k).
Proof.
  destruct w as [ctx rt]. destruct (transition_ADD ctx rt k) as (rt' & Ht & _).
  eexists _, _. split; [exact Ht|]. cbn [fst snd stages with_stages].
  pose proof (slice_pos_le (stages ctx) k) as Hle.
  set (p := slice_pos (stages ctx) k) in *.
  assert (Hlen : length (slice_to (stages ctx) k) = p).
  { unfold slice_to. fold p. rewrite length_take. lia. }
  split.
  { rewrite length_app. cbn [length]. unfold slice_from. fold p.
    rewrite Hlen, length_drop. lia. }
  split.
  { rewrite lookup_app_r by lia. rewrite Hlen, Nat.sub_diag. reflexivity. }
  split; [done|]. split; [reflexivity|]. split; [reflexivity|].
  split; [reflexivity|]. split; [reflexivity|].
  split.
  { intros j Hj. rewrite lookup_app_l by lia. unfold slice_to. fold p.
    by rewrite lookup_take_lt. }
  split.
  { intros j Hj. rewrite lookup_app_r by lia. rewrite Hlen.
    rewrite lookup_cons_ne_0 by lia.
    change (slice_from (stages ctx) k) with (drop p (stages ctx)).
    rewrite lookup_drop. f_equal. lia. }
  apply slice_pos_in_range.
Qed.

(** *** STAGE.DELETE on a bar of several stages *)

Lemma filter_all {A} (P : A -> Prop) `{!forall x, Decision (P x)} (l : list A) :
  Forall P l -> filter P l = l.
Proof.
  induction 1 as [|x l Hx _ IH]; [reflexivity|].
  rewrite filter_cons_True by done. by rewrite IH.
Qed.

Lemma filter_none {A} (P : A -> Prop) `{!forall x, Decision (P x)} (l : list A) :
  filter P l = [] <-> Forall (fun x => ~ P x) l.
Proof.
  induction l as [|x l IH]; [by split|].
  rewrite filter_cons. destruct (decide (P x)) as [HP|HP].
  - split; [discriminate|]. intros Hall. by inversion Hall.
  - rewrite IH. split; [by constructor|]. intros Hall. by inversion Hall.
Qed.

(** Removing by key removes one position when the keys are distinct. *)
Lemma filter_key_delete {A B} `{!EqDecision B} (f : A -> B) (l : list A) :
  forall i x,
    NoDup (f <$> l) -> l !! i = Some x ->
    filter (fun y => f y ≠ f x) l = delete i l.
Proof.
  induction l as [|y l IH]; intros i x Hnd Hi; [by rewrite lookup_nil in Hi|].
  rewrite fmap_cons in Hnd. apply NoDup_cons in Hnd as [Hy Hnd].
  destruct i as [|i]; cbn in Hi.
  - injection Hi as ->. rewrite filter_cons_False by (intros H; by apply H).
    cbn. apply filter_all. apply Forall_forall. intros z Hz Heq.
    apply Hy. rewrite <- Heq. apply list_elem_of_fmap. by exists z.
  - rewrite filter_cons_True.
    + cbn. f_equal. by apply IH.
    + intros Heq. apply Hy. rewrite Heq. apply list_elem_of_fmap.
      exists x. split; [done|]. eapply list_elem_of_lookup_2, Hi.
Qed.

(** What STAGE.DELETE does to a list that has not exactly one stage. *)
Lemma transition_DELETE ctx rt s :
  length (stages ctx) <> 1 ->
  match filter (fun e => id (entry e) ≠ id s) (stages ctx) with
  | [] => transition (ctx, rt) (STAGE_DELETE s) = Throw TypeError
  | l' =>
      exists rt',
        transition (ctx, rt) (STAGE_DELETE s) = Ok (with_stages ctx l', rt') /\
        uuids rt' = uuids rt /\ spawned rt' = spawned rt
  end.
Proof.
  intros Hlen.
  assert (Hassign : assign_STAGE_DELETE s ctx rt
            = Ok (with_stages ctx
                    (filter (fun e => id (entry e) ≠ id s) (stages ctx)), rt)).
  { unfold assign_STAGE_DELETE. destruct (stages ctx) as [|a [|b l]]; done. }
  assert (Ht : transition (ctx, rt) (STAGE_DELETE s)
            = ViewBar.bind
                (send_to_first (fun c => bool_decide (length (stages c) = 1))
                   (with_stages ctx
                      (filter (fun e => id (entry e) ≠ id s) (stages ctx))))
                (fun _ => ret (with_stages ctx
                      (filter (fun e => id (entry e) ≠ id s) (stages ctx)))) rt).
  { unfold transition, handle. cbn [fst snd].
    unfold ViewBar.bind at 1. by rewrite Hassign. }
  destruct (filter (fun e => id (entry e) ≠ id s) (stages ctx)) as [|e0 l'].
  - rewrite Ht. reflexivity.
  - eexists. rewrite Ht. split; [reflexivity|]. split; reflexivity.
Qed.

(** X2: On a bar of two or more stages whose ids are distinct, STAGE.DELETE
    with the id of the stage at position [i] removes that position and no
    other. *)
Theorem delete_removes_the_stage w s i e :
  2 <= length (stages w.1) ->
  NoDup ((fun e => id (entry e)) <$> stages w.1) ->
  stages w.1 !! i = Some e ->
  id s = id (entry e) ->
  exists w',
    transition w (STAGE_DELETE s) = Ok w' /\
    stages w'.1 = delete i (stages w.1) /\
    length (stages w'.1) = pred (length (stages w.1)).
Proof.
  intros Hlen Hnd Hi Hid. destruct w as [ctx rt]. cbn [fst snd] in *.
  pose proof (transition_DELETE ctx rt s ltac:(lia)) as Ht.
  rewrite Hid in Ht.
  rewrite (filter_key_delete (fun e => id (entry e)) (stages ctx) i e Hnd Hi) in Ht.
  assert (Hdel : length (delete i (stages ctx)) = pred (length (stages ctx))).
  { rewrite length_delete; [lia | by eexists]. }
  destruct (delete i (stages ctx)) as [|e0 l'] eqn:Hd; [cbn in Hdel; lia|].
  destruct Ht as (rt' & Ht & _). eexists. split; [exact Ht|]. by split.
Qed.

Lemma delete_removes_the_stage_witness :
  2 <= length (stages (after sole_blank (STAGE_ADD 1)).1) /\
  exists w',
    transition (after sole_blank (STAGE_ADD 1))
      (STAGE_DELETE (entry sole_blank_entry)) = Ok w' /\
    stages w'.1 = delete 0 (stages (after sole_blank (STAGE_ADD 1)).1) /\
    length (stages w'.1) = pred (length (stages (after sole_blank (STAGE_ADD 1)).1)).
Proof.
  split; [vm_compute; lia|].
  apply (delete_removes_the_stage (after sole_blank (STAGE_ADD 1))
           (entry sole_blank_entry) 0 sole_blank_entry).
  - vm_compute. lia.
  - vm_compute. apply NoDup_cons. split; [|apply NoDup_singleton].
    intros H. apply list_elem_of_singleton in H. discriminate H.
  - reflexivity.
  - reflexivity.
Defined.

(** X3: On a bar of two or more stages, STAGE.DELETE with an id that no stage
    has leaves the list as it is. *)
Theorem delete_unknown_id_keeps_list w s :
  2 <= length (stages w.1) ->
  Forall (fun e => id (entry e) ≠ id s) (stages w.1) ->
  exists w', transition w (STAGE_DELETE s) = Ok w' /\ stages w'.1 = stages w.1.
Proof.
  intros Hlen Hall. destruct w as [ctx rt]. cbn [fst snd] in *.
  pose proof (transition_DELETE ctx rt s ltac:(lia)) as Ht.
  rewrite (filter_all _ _ Hall) in Ht.
  destruct (stages ctx) as [|e0 l'] eqn:Hl; [cbn in Hlen; lia|].
  destruct Ht as (rt' & Ht & _). eexists. split; [exact Ht|]. reflexivity.
Qed.

Lemma delete_unknown_id_keeps_list_witness :
  2 <= length (stages (after sole_blank (STAGE_ADD 1)).1) /\
  exists w',
    transition (after sole_blank (STAGE_ADD 1)) (STAGE_DELETE unknown_stage) = Ok w' /\
    stages w'.1 = stages (after sole_blank (STAGE_ADD 1)).1.
Proof.
  split; [vm_compute; lia|].
  apply (delete_unknown_id_keeps_list (after sole_blank (STAGE_ADD 1)) unknown_stage).
  - vm_compute. lia.
  - vm_compute. repeat constructor; discriminate.
Defined.

(** X4: STAGE.DELETE throws exactly when the list has not exactly one stage and
    every stage has the id of the event (an empty list included): filtering
    leaves nothing, and reading [stages[0].ref] fails with a TypeError. *)
Theorem delete_throws_iff w s :
  (exists err, transition w (STAGE_DELETE s) = Throw err) <->
  length (stages w.1) <> 1 /\ Forall (fun e => id (entry e) = id s) (stages w.1).
Proof.
  destruct w as [ctx rt]. cbn [fst snd].
  destruct (decide (length (stages ctx) = 1)) as [Hone|Hmany].
  - split; [|tauto]. intros [err Herr]. exfalso.
    destruct (stages ctx) as [|e0 [|e1 l]] eqn:Hl; try discriminate Hone.
    unfold transition, handle, assign_STAGE_DELETE in Herr. cbn [fst snd] in Herr.
    rewrite Hl in Herr. discriminate Herr.
  - pose proof (transition_DELETE ctx rt s Hmany) as Ht.
    destruct (filter (fun e => id (entry e) ≠ id s) (stages ctx)) as [|e0 l'] eqn:Hf.
    + split; [|by eexists]. intros _. split; [done|].
      apply filter_none in Hf. eapply Forall_impl; [exact Hf|].
      intros e He. cbn in He. by destruct (decide (id (entry e) = id s)).
    + destruct Ht as (rt' & Ht & _). split.
      * intros [err Herr]. rewrite Ht in Herr. discriminate Herr.
      * intros [_ Hall]. exfalso.
        assert (He0 : e0 ∈ filter (fun e => id (entry e) ≠ id s) (stages ctx))
          by (rewrite Hf; left).
        apply list_elem_of_filter in He0 as [Hne He0].
        rewrite Forall_forall in Hall. by apply Hne, Hall.
Qed.

(** *** STAGE.COMMIT *)

Lemma transition_COMMIT ctx rt s :
  transition (ctx, rt) (STAGE_COMMIT s)
  = match at_index (stages ctx) (index s) with
    | Some old =>
        Ok (with_stages ctx
              (<[Z.to_nat (index s) := {| entry := s; ref := ref old |}]> (stages ctx)),
            rt)
    | None => Throw TypeError
    end.
Proof.
  unfold transition, handle, assign_STAGE_COMMIT. cbn [fst snd].
  by destruct (at_index (stages ctx) (index s)).
Qed.

Lemma at_index_Some {A} (l : list A) (k : Z) x :
  at_index l k = Some x <->
  (0 <= k < Z.of_nat (length l))%Z /\ l !! Z.to_nat k = Some x.
Proof.
  unfold at_index. destruct (Z.ltb_spec k 0) as [Hneg|Hpos].
  - split; [discriminate | lia].
  - split.
    + intros Hx. split; [|done]. apply lookup_lt_Some in Hx. lia.
    + by intros [_ Hx].
Qed.

(** X5: STAGE.COMMIT goes through exactly when [stage.index] is a position of
    the list; otherwise it throws a TypeError and the bar stays as it was. *)
Theorem commit_succeeds_iff_in_range w s :
  ((exists w', transition w (STAGE_COMMIT s) = Ok w') <->
   (0 <= index s < Z.of_nat (length (stages w.1)))%Z) /\
  (~ (0 <= index s < Z.of_nat (length (stages w.1)))%Z ->
   transition w (STAGE_COMMIT s) = Throw TypeError /\
   after w (STAGE_COMMIT s) = w).
Proof.
  destruct w as [ctx rt]. cbn [fst snd]. unfold after.
  rewrite transition_COMMIT.
  destruct (at_index (stages ctx) (index s)) as [old|] eqn:Hat.
  - apply at_index_Some in Hat as [Hin _]. split; [|tauto].
    split; [done | by eexists].
  - split.
    + split; [by intros [w' Hw']|]. intros Hin.
      destruct (lookup_lt_is_Some_2 (stages ctx) (Z.to_nat (index s))) as [x Hx];
        [lia|].
      assert (at_index (stages ctx) (index s) = Some x) by by apply at_index_Some.
      congruence.
    + done.
Qed.

(** X6: Committing the same stage twice is committing it once. *)
Theorem commit_twice_is_once w s :
  after (after w (STAGE_COMMIT s)) (STAGE_COMMIT s) = after w (STAGE_COMMIT s).
Proof.
  destruct w as [ctx rt]. unfold after at 2 3. rewrite transition_COMMIT.
  destruct (at_index (stages ctx) (index s)) as [old|] eqn:Hat.
  - unfold after. rewrite transition_COMMIT. cbn [stages with_stages].
    apply at_index_Some in Hat as [Hin Hold].
    assert (Hnew : at_index
              (<[Z.to_nat (index s) := {| entry := s; ref := ref old |}]> (stages ctx))
              (index s) = Some {| entry := s; ref := ref old |}).
    { apply at_index_Some. rewrite length_insert. split; [done|].
      apply list_lookup_insert_eq. lia. }
    rewrite Hnew. cbn [ref]. by rewrite list_insert_insert_eq.
  - unfold after. by rewrite transition_COMMIT, Hat.
Qed.

(** *** STAGE.ADD followed by the deletion of the new stage *)

(** X7: On a bar that is not empty and where no stage has the id the next
    [uuid()] gives, adding a stage and then deleting it (the event carries
    the stage as it was created) gives back the list of stages. *)
Theorem add_then_delete_restores w k :
  stages w.1 <> [] ->
  Forall (fun e => id (entry e) ≠ uuids w.2) (stages w.1) ->
  exists w1 new w2,
    transition w (STAGE_ADD k) = Ok w1 /\
    stages w1.1 !! slice_pos (stages w.1) k = Some new /\
    transition w1 (STAGE_DELETE (entry new)) = Ok w2 /\
    stages w2.1 = stages w.1.
Proof.
  intros Hne Hfresh. destruct w as [ctx rt]. cbn [fst snd] in *.
  destruct (transition_ADD ctx rt k) as (rt1 & Hadd & _).
  set (new := {| entry := {| id := uuids rt |}; ref := spawned rt |}) in Hadd.
  set (l1 := slice_to (stages ctx) k ++ new :: slice_from (stages ctx) k) in Hadd.
  assert (Hl1 : length l1 = S (length (stages ctx))).
  { unfold l1, slice_to, slice_from. rewrite length_app. cbn [length].
    rewrite length_take, length_drop.
    pose proof (slice_pos_le (stages ctx) k). lia. }
  assert (Hf : filter (fun e => id (entry e) ≠ id (entry new)) l1 = stages ctx).
  { unfold l1. rewrite filter_app, filter_cons_False by (intros H; by apply H).
    rewrite !filter_all.
    - apply take_drop.
    - eapply Forall_forall. intros e He. rewrite Forall_forall in Hfresh.
      apply Hfresh. eapply subseteq_drop, He.
    - eapply Forall_forall. intros e He. rewrite Forall_forall in Hfresh.
      apply Hfresh. eapply subseteq_take, He. }
  pose proof (transition_DELETE (with_stages ctx l1) rt1 (entry new)) as Hdel.
  cbn [stages with_stages] in Hdel. rewrite Hf in Hdel.
  specialize (Hdel ltac:(destruct (stages ctx); [done | cbn in Hl1; lia])).
  destruct (stages ctx) as [|e0 l0] eqn:Hl; [done|].
  destruct Hdel as (rt2 & Hdel & _).
  exists (with_stages ctx l1, rt1), new, (with_stages ctx (e0 :: l0), rt2).
  split; [exact Hadd|]. split.
  { cbn [fst stages with_stages]. unfold l1.
    rewrite lookup_app_r; unfold slice_to; rewrite length_take;
      pose proof (slice_pos_le (e0 :: l0) k) as Hle; [|lia].
    replace (slice_pos (e0 :: l0) k - _) with 0 by lia. reflexivity. }
  split; [exact Hdel | reflexivity].
Qed.

Lemma add_then_delete_restores_witness :
  stages sole_blank.1 <> [] /\
  exists w1 new w2,
    transition sole_blank (STAGE_ADD 1) = Ok w1 /\
    stages w1.1 !! slice_pos (stages sole_blank.1) 1 = Some new /\
    transition w1 (STAGE_DELETE (entry new)) = Ok w2 /\
    stages w2.1 = stages sole_blank.1.
Proof.
  split; [discriminate|].
  apply (add_then_delete_restores sole_blank 1).
  - discriminate.
  - repeat constructor. cbn. discriminate.
Defined.

(** *** The actors of the stages *)

Lemma transition_DELETE_one ctx rt s e0 :
  stages ctx = [e0] ->
  exists rt',
    transition (ctx, rt) (STAGE_DELETE s)
    = Ok (with_stages ctx [ {| entry := set_hideDelete true s; ref := ref e0 |} ], rt') /\
    uuids rt' = uuids rt /\ spawned rt' = spawned rt.
Proof.
  intros Hl. unfold transition, handle, assign_STAGE_DELETE. cbn [fst snd].
  rewrite Hl. eexists. split; [reflexivity|]. split; reflexivity.
Qed.

Lemma fresh_refs_entry (ctx : Bar string) data_stages rt w :
  enter_running ctx data_stages rt = Ok w ->
  NoDup (ref <$> stages w.1) /\ Forall (fun r => r < spawned w.2) (ref <$> stages w.1).
Proof.
  unfold enter_running, onDone. destruct (stages ctx); [|discriminate].
  cbn. intros [= <-]. cbn. split; [apply NoDup_singleton|].
  repeat constructor.
Qed.

Lemma fresh_refs_step w ev w' :
  NoDup (ref <$> stages w.1) ->
  Forall (fun r => r < spawned w.2) (ref <$> stages w.1) ->
  transition w ev = Ok w' ->
  NoDup (ref <$> stages w'.1) /\ Forall (fun r => r < spawned w'.2) (ref <$> stages w'.1).
Proof.
  destruct w as [ctx rt]. cbn [fst snd]. intros Hnd Hlt Ht.
  destruct ev as [k|s|s].
  - destruct (transition_ADD ctx rt k) as (rt' & Ht' & _ & Hsp).
    rewrite Ht' in Ht. injection Ht as <-. cbn [fst snd stages with_stages].
    rewrite Hsp, fmap_app, fmap_cons. cbn [ref].
    assert (Hperm :
      (ref <$> slice_to (stages ctx) k) ++ spawned rt :: (ref <$> slice_from (stages ctx) k)
      ≡ₚ spawned rt :: (ref <$> stages ctx)).
    { rewrite <- Permutation_middle. constructor.
      rewrite <- fmap_app. unfold slice_to, slice_from. by rewrite take_drop. }
    rewrite Hperm. split.
    + apply NoDup_cons. split; [|done]. intros Hin.
      rewrite Forall_forall in Hlt. specialize (Hlt _ Hin). lia.
    + constructor; [lia|]. eapply Forall_impl; [exact Hlt|]. cbn. lia.
  - rewrite transition_COMMIT in Ht.
    destruct (at_index (stages ctx) (index s)) as [old|] eqn:Hat; [|discriminate].
    injection Ht as <-. cbn [fst snd stages with_stages].
    apply at_index_Some in Hat as [_ Hold].
    rewrite list_fmap_insert. cbn [ref].
    rewrite list_insert_id; [done|]. by rewrite list_lookup_fmap, Hold.
  - destruct (decide (length (stages ctx) = 1)) as [Hone|Hmany].
    + destruct (stages ctx) as [|e0 [|e1 l]] eqn:Hl; try discriminate Hone.
      destruct (transition_DELETE_one ctx rt s e0 Hl) as (rt' & Ht' & _ & Hsp).
      rewrite Ht' in Ht. injection Ht as <-. cbn [fst snd stages with_stages].
      by rewrite Hsp.
    + pose proof (transition_DELETE ctx rt s Hmany) as Ht'.
      assert (Hsub : (ref <$> filter (fun e => id (entry e) ≠ id s) (stages ctx))
                       `sublist_of` (ref <$> stages ctx)).
      { apply fmap_sublist, sublist_filter. }
      destruct (filter (fun e => id (entry e) ≠ id s) (stages ctx)) as [|e0 l'].
      { rewrite Ht' in Ht. discriminate Ht. }
      destruct Ht' as (rt' & Ht' & _ & Hsp).
      rewrite Ht' in Ht. injection Ht as <-. cbn [fst snd stages with_stages].
      rewrite Hsp. split; [by eapply sublist_NoDup|].
      apply Forall_forall. intros r Hr. rewrite Forall_forall in Hlt.
      apply Hlt. eapply elem_of_sublist; eauto.
Qed.

(** X8: In every state a bar reaches, no two stages of the list share an actor,
    and every actor reference of the list is one that [spawn] has handed
    out. *)
Theorem stages_have_distinct_actors w :
  reachable w ->
  NoDup (ref <$> stages w.1) /\
  Forall (fun r => r < spawned w.2) (ref <$> stages w.1).
Proof.
  induction 1 as [ctx data_stages rt w Henter | w ev w' _ [Hnd Hlt] Hstep].
  - eapply fresh_refs_entry, Henter.
  - eapply fresh_refs_step; eauto.
Qed.

Lemma stages_have_distinct_actors_witness :
  reachable (after sole_blank (STAGE_ADD 0)) /\
  NoDup (ref <$> stages (after sole_blank (STAGE_ADD 0)).1) /\
  Forall (fun r => r < spawned (after sole_blank (STAGE_ADD 0)).2)
    (ref <$> stages (after sole_blank (STAGE_ADD 0)).1).
Proof.
  assert (Hr : reachable (after sole_blank (STAGE_ADD 0))).
  { apply (reachable_step sole_blank (STAGE_ADD 0)).
    - apply (reachable_entry (createBar 5151) catalog0 rt0 sole_blank). reflexivity.
    - reflexivity. }
  split; [exact Hr|].
  apply (stages_have_distinct_actors (after sole_blank (STAGE_ADD 0)) Hr).
Defined.

(** *** Entering [running] *)

Lemma materialize_spec info l : forall i rt,
  exists l' rt',
    materialize info i l rt = Ok (l', rt') /\
    length l' = length l /\
    uuids rt' = uuids rt + length l /\
    spawned rt' = spawned rt + length l /\
    (forall r, r < spawned rt -> actors rt' !! r = actors rt !! r) /\
    (forall j name, l !! j = Some name ->
       l' !! j = Some
         {| entry := {| id := uuids rt + j; submitted := false; stage := name;
                        parameters := []; stageInfo := info;
                        index := Z.of_nat (i + j);
                        focusOnInit := false; hideDelete := true |};
            ref := spawned rt + j |} /\
       actors rt' !! (spawned rt + j)
       = Some {| id := uuids rt + j; submitted := false; stage := name;
                 parameters := []; stageInfo := info;
                 index := Z.of_nat (i + j);
                 focusOnInit := false; hideDelete := true |}).
Proof.
  induction l as [|x l IH]; intros i rt.
  - exists [], rt. split; [reflexivity|]. cbn.
    repeat split; try lia; try done; intros j name Hj; by rewrite lookup_nil in Hj.
  - cbn [materialize]. unfold ViewBar.bind at 1. cbn.
    match goal with |- context [ViewBar.bind _ _ ?r] =>
      destruct (IH (S i) r) as (l' & rt' & Hm & Hlen & Hu & Hs & Hkeep & Hspec) end.
    unfold ViewBar.bind at 1. rewrite Hm. cbn in Hu, Hs, Hkeep, Hspec |- *.
    eexists _, _. split; [reflexivity|].
    split; [cbn; by f_equal|]. split; [lia|]. split; [lia|]. split.
    { intros r Hr. rewrite Hkeep by lia. apply lookup_insert_ne. lia. }
    intros [|j] name Hj; cbn in Hj.
    + injection Hj as <-. rewrite !Nat.add_0_r. split; [reflexivity|].
      rewrite Hkeep by lia. apply lookup_insert_eq.
    + destruct (Hspec j name Hj) as [Hl' Ha]. cbn.
      replace (uuids rt + S j) with (S (uuids rt + j)) by lia.
      replace (spawned rt + S j) with (S (spawned rt + j)) by lia.
      replace (i + S j) with (S (i + j)) by lia. by split.
Qed.

(** X9: The entry action of [running] turns every stage name of the context
    into a stage, in order: the stage at position [j] has that name, index
    [j], no parameters, [submitted = false], [focusOnInit = false],
    [hideDelete = true] and the catalog of the context, and an actor of its
    own that starts with the same context. *)
Theorem running_entry_materializes (ctx : Bar string) rt :
  exists w,
    running_entry ctx rt = Ok w /\
    length (stages w.1) = length (stages ctx) /\
    bar_stageInfo w.1 = bar_stageInfo ctx /\
    NoDup (ref <$> stages w.1) /\
    forall j name, stages ctx !! j = Some name ->
      exists e,
        stages w.1 !! j = Some e /\
        stage (entry e) = name /\ index (entry e) = Z.of_nat j /\
        parameters (entry e) = [] /\ submitted (entry e) = false /\
        focusOnInit (entry e) = false /\ hideDelete (entry e) = true /\
        stageInfo (entry e) = bar_stageInfo ctx /\
        actors w.2 !! ref e = Some (entry e).
Proof.
  unfold running_entry, ViewBar.bind.
  destruct (materialize_spec (bar_stageInfo ctx) (stages ctx) 0 rt)
    as (l' & rt' & Hm & Hlen & _ & _ & _ & Hspec).
  rewrite Hm. cbn. eexists. split; [reflexivity|]. cbn.
  split; [exact Hlen|]. split; [reflexivity|]. split.
  - apply NoDup_alt. intros j1 j2 r H1 H2.
    rewrite list_lookup_fmap in H1, H2.
    destruct (l' !! j1) as [e1|] eqn:He1; [|discriminate].
    destruct (l' !! j2) as [e2|] eqn:He2; [|discriminate].
    destruct (lookup_lt_is_Some_2 (stages ctx) j1) as [n1 Hn1];
      [rewrite <- Hlen; by eapply lookup_lt_Some|].
    destruct (lookup_lt_is_Some_2 (stages ctx) j2) as [n2 Hn2];
      [rewrite <- Hlen; by eapply lookup_lt_Some|].
    destruct (Hspec j1 n1 Hn1) as [Hl1 _]. destruct (Hspec j2 n2 Hn2) as [Hl2 _].
    rewrite He1 in Hl1. rewrite He2 in Hl2.
    injection Hl1 as ->. injection Hl2 as ->. cbn in H1, H2.
    injection H1 as <-. injection H2 as H2. lia.
  - intros j name Hj. destruct (Hspec j name Hj) as [Hl' Ha].
    eexists. split; [exact Hl'|]. cbn. by repeat split.
Qed.

(** X10: The machine gets from [initializing] to [running] exactly when the bar
    was built without stages; with one stage or more the transition throws a
    ReferenceError. *)
Theorem enter_running_iff_no_stage (ctx : Bar string) data_stages rt :
  match enter_running ctx data_stages rt with
  | Ok w => stages ctx = [] /\ length (stages w.1) = 1
  | Throw err => stages ctx <> [] /\ err = ReferenceError
  end.
Proof.
  unfold enter_running, onDone. destruct (stages ctx) as [|x l]; [|done].
  cbn. by split.
Qed.

End ViewBarMore.

(** * More of the polling selector *)

Module PollingMore.
Import Polling PollingProps.

(** X11: As long as the replies are failures or [null] bodies the selector keeps
    asking: after [k] such replies it is back at the head of its loop, has
    made [k] requests and has waited [k] times 2000 ms, for every [k]. *)
Theorem fiftyone_keeps_polling http (r : nat -> option Json) k fuel :
  null_until r 0 k ->
  run (3 * k + fuel) (fiftyone http) (fresh r)
  = run fuel (fiftyone http)
      {| replies := r; requests := k; waited := (2000 * N.of_nat k)%N |}.
Proof.
  assert (Hgen : forall k n fuel,
    null_until (replies n) (requests n) k ->
    run (3 * k + fuel) (fiftyone http) n
    = run fuel (fiftyone http)
        {| replies := replies n; requests := requests n + k;
           waited := (waited n + 2000 * N.of_nat k)%N |}).
  { clear. induction k as [|k IH]; intros n fuel Hnull.
    - cbn [Nat.mul Nat.add]. f_equal. destruct n as [rp rq wt]. cbn. f_equal; lia.
    - replace (3 * S k + fuel) with (S (S (S (3 * k + fuel)))) by lia.
      rewrite run_turn_null.
      2:{ specialize (Hnull 0 ltac:(lia)). by rewrite Nat.add_0_r in Hnull. }
      rewrite IH.
      + f_equal. unfold advance. cbn [replies requests waited]. f_equal; lia.
      + intros i Hi. unfold advance. cbn [replies requests].
        replace (S (requests n) + i) with (requests n + S i) by lia.
        apply Hnull. lia. }
  intros Hnull. rewrite (Hgen k (fresh r) fuel Hnull). reflexivity.
Qed.

Lemma fiftyone_keeps_polling_witness :
  null_until (fun _ => None) 0 4 /\
  run (3 * 4 + 5) (fiftyone "http://localhost:5151") (fresh (fun _ => None))
  = run 5 (fiftyone "http://localhost:5151")
      {| replies := fun _ => None; requests := 4; waited := (2000 * N.of_nat 4)%N |}.
Proof.
  assert (H : null_until (fun _ : nat => @None Json) 0 4) by (intros i _; reflexivity).
  split; [exact H|].
  apply (fiftyone_keeps_polling "http://localhost:5151" (fun _ => None) 4 5 H).
Defined.

(** X12: On a network whose every reply is a failure or a [null] body the
    selector never returns, however long it runs. *)
Theorem fiftyone_never_returns_on_null http (r : nat -> option Json) :
  (forall i, null_reply (r i) = true) ->
  forall fuel, run fuel (fiftyone http) (fresh r) = None.
Proof.
  intros Hnull fuel.
  destruct (run fuel (fiftyone http) (fresh r)) as [[v n']|] eqn:Hrun;
    [|reflexivity].
  apply run_returns_only_value in Hrun as (k & _ & Hv & Hnn & _).
  cbn in Hv. specialize (Hnull k). rewrite Hv in Hnull.
  destruct v; discriminate.
Qed.

Lemma fiftyone_never_returns_on_null_witness :
  (forall i : nat, null_reply (if Nat.even i then None else Some JNull) = true) /\
  forall fuel,
    run fuel (fiftyone "http://localhost:5151")
      (fresh (fun i => if Nat.even i then None else Some JNull)) = None.
Proof.
  assert (H : forall i : nat,
             null_reply (if Nat.even i then None else Some JNull) = true)
    by (intros i; destruct (Nat.even i); reflexivity).
  split; [exact H|].
  apply (fiftyone_never_returns_on_null "http://localhost:5151"
           (fun i => if Nat.even i then None else Some JNull) H).
Defined.

End PollingMore.

(** * More of the selectors *)

Module SessionMore.
Import Session Projections SessionFixtures MoreFixtures.

Lemma fromEntries_snoc {V} (l : list (string * V)) k v :
  fromEntries (l ++ [(k, v)]) = <[k := v]> (fromEntries l).
Proof. unfold fromEntries. by rewrite foldl_app. Qed.

Lemma dom_fromEntries {V} (l : list (string * V)) :
  dom (fromEntries l) = list_to_set l.*1.
Proof.
  induction l as [|[k v] l IH] using rev_ind.
  { unfold fromEntries. cbn. by rewrite dom_empty_L. }
  rewrite fromEntries_snoc, dom_insert_L, IH, fmap_app, list_to_set_app_L.
  cbn. rewrite (right_id_L ∅ (∪)). apply (comm_L (∪)).
Qed.

Lemma fromEntries_lookup_last {V} (l1 l2 : list (string * V)) k v :
  k ∉ l2.*1 -> fromEntries (l1 ++ (k, v) :: l2) !! k = Some v.
Proof.
  induction l2 as [|[k' v'] l2 IH] using rev_ind; intros Hk.
  - by rewrite fromEntries_snoc, lookup_insert_eq.
  - replace (l1 ++ (k, v) :: l2 ++ [(k', v')])
      with ((l1 ++ (k, v) :: l2) ++ [(k', v')]) by by rewrite <- app_assoc.
    rewrite fromEntries_snoc. rewrite fmap_app in Hk. cbn in Hk.
    rewrite elem_of_app, list_elem_of_singleton in Hk.
    rewrite lookup_insert_ne by (intros ->; tauto). apply IH. tauto.
Qed.

Lemma fromEntries_lookup_Some {V} (l : list (string * V)) k v :
  fromEntries l !! k = Some v -> (k, v) ∈ l.
Proof.
  induction l as [|[k' v'] l IH] using rev_ind.
  - unfold fromEntries. cbn. by rewrite lookup_empty.
  - rewrite fromEntries_snoc. intros Hl.
    apply elem_of_app.
    apply lookup_insert_Some in Hl as [[-> ->]|[_ Hl]]; [right; left | left; auto].
Qed.

Section Selectors.
Context {Field : Type}.
Implicit Types (s : RootSnapshot Field).

Lemma selectedLabels_get_Some s (labels : list Label) :
  stateDescription s ≫= sd_selectedLabels = Some labels ->
  selectedLabels_get s = Ok (fromEntries ((fun l => (key_of l, l)) <$> labels)).
Proof. intros Hl. unfold selectedLabels_get. by rewrite Hl. Qed.

(** Numbers as keys: small integers print as their digits, integers above
    2^53 with the fewest digits that denote the same double, and in exponent
    form from 1e21. *)
Example number_key_examples :
  number_key 7 = "7"%string /\
  number_key (-5) = "-5"%string /\
  number_key (2 ^ 53 + 1) = "9007199254740992"%string /\
  number_key (2 ^ 60) = "1152921504606847000"%string /\
  number_key (10 ^ 21 - 1) = "1e+21"%string /\
  number_key (10 ^ 21) = "1e+21"%string /\
  number_key (2 ^ 70) = "1.1805916207174113e+21"%string /\
  number_key (10 ^ 23) = "1e+23"%string /\
  number_key (2 ^ 1024) = "Infinity"%string.
Proof. vm_compute. by repeat split. Qed.

Example number_key_small :
  forallb (fun n => String.eqb (number_key n) (pretty n)) (Z.of_nat <$> seq 0 1000)
    = true.
Proof. vm_compute. reflexivity. Qed.

(** X13: The ids [selectedLabelIds] returns are exactly the [labelId]s of the
    labels of the state description, each as the property key it makes. *)
Theorem selectedLabelIds_are_the_labelIds s (labels : list Label) :
  stateDescription s ≫= sd_selectedLabels = Some labels ->
  selectedLabelIds s = Ok (list_to_set (key_of <$> labels)).
Proof.
  intros Hl. unfold selectedLabelIds. rewrite (selectedLabels_get_Some s labels Hl).
  f_equal. rewrite dom_fromEntries. f_equal.
  rewrite <- list_fmap_compose. reflexivity.
Qed.

(** X14: When several selected labels have the same [labelId], the mapping keeps
    the last of them; a label that is the last one with its id is found
    under that id. *)
Theorem selectedLabels_last_label_wins s (before after : list Label) (l : Label) :
  stateDescription s ≫= sd_selectedLabels = Some (before ++ l :: after) ->
  key_of l ∉ key_of <$> after ->
  exists m, selectedLabels_get s = Ok m /\ m !! key_of l = Some l.
Proof.
  intros Hl Hlast. rewrite (selectedLabels_get_Some s _ Hl).
  eexists. split; [reflexivity|].
  rewrite fmap_app, fmap_cons. apply fromEntries_lookup_last.
  by rewrite <- list_fmap_compose.
Qed.

(** X15: With pairwise distinct [labelId]s no label is lost: the mapping has one
    entry per label, each label under its own id, and nothing else. *)
Theorem selectedLabels_distinct_ids s (labels : list Label) :
  stateDescription s ≫= sd_selectedLabels = Some labels ->
  NoDup (key_of <$> labels) ->
  exists m,
    selectedLabels_get s = Ok m /\
    size m = length labels /\
    (forall k l, m !! k = Some l <-> l ∈ labels /\ key_of l = k).
Proof.
  intros Hl Hnd. rewrite (selectedLabels_get_Some s _ Hl).
  eexists. split; [reflexivity|].
  set (es := (fun l : Label => (key_of l, l)) <$> labels).
  assert (Hfst : es.*1 = key_of <$> labels).
  { unfold es. by rewrite <- list_fmap_compose. }
  assert (Hiff : forall k l, fromEntries es !! k = Some l <-> l ∈ labels /\ key_of l = k).
  { intros k l. split.
    - intros Hm. apply fromEntries_lookup_Some in Hm. unfold es in Hm.
      apply list_elem_of_fmap in Hm as (l' & [= -> ->] & Hin). by split.
    - intros [Hin <-].
      apply list_elem_of_split in Hin as (l1 & l2 & ->).
      unfold es. rewrite fmap_app, fmap_cons. apply fromEntries_lookup_last.
      rewrite <- list_fmap_compose.
      rewrite fmap_app, fmap_cons in Hnd.
      apply NoDup_app in Hnd as (_ & _ & Hnd). by apply NoDup_cons in Hnd as [Hnot _]. }
  split; [|exact Hiff].
  rewrite <- size_dom, dom_fromEntries, Hfst.
  rewrite size_list_to_set by done. by rewrite length_fmap.
Qed.

(** *** The setter of selectedLabels *)

(** X16: The setter serializes one label per key of the mapping, each with its
    key as [label_id] (in place of a [label_id] it had) and its other
    properties kept; it stores that sequence under [selected_labels], sends
    the same sequence in exactly one socket message, and changes nothing else
    of the snapshot or of the state description. *)
Theorem selectedLabels_set_serializes (value : gmap string Label) s socket :
  exists labels,
    (selectedLabels_set value s socket).2
      = socket ++ [packageMessage "set_selected_labels" labels] /\
    (stateDescription (selectedLabels_set value s socket).1 ≫= sd_selected_labels)
      = Some labels /\
    length labels = size value /\
    (forall l, l ∈ labels <->
       exists k v, value !! k = Some v /\ l = <["label_id" := JsStr k]> v) /\
    (forall l, l ∈ labels -> exists k, l !! "label_id"%string = Some (JsStr k)
                                     /\ k ∈ dom value) /\
    (stateDescription (selectedLabels_set value s socket).1 ≫= sd_dataset)
      = (stateDescription s ≫= sd_dataset) /\
    (stateDescription (selectedLabels_set value s socket).1 ≫= sd_selectedLabels)
      = (stateDescription s ≫= sd_selectedLabels) /\
    view (selectedLabels_set value s socket).1 = view s /\
    hiddenLabels (selectedLabels_set value s socket).1 = hiddenLabels s /\
    modal (selectedLabels_set value s socket).1 = modal s.
Proof.
  eexists. split; [reflexivity|]. split; [reflexivity|].
  assert (Hmem : forall l,
    l ∈ (fun kv : string * Label => <["label_id" := JsStr kv.1]> kv.2) <$> entries value
    <-> exists k v, value !! k = Some v /\ l = <["label_id" := JsStr k]> v).
  { intros l. rewrite list_elem_of_fmap. split.
    - intros ([k v] & -> & Hin). apply elem_of_map_to_list in Hin. by exists k, v.
    - intros (k & v & Hkv & ->). exists (k, v). split; [done|].
      by apply elem_of_map_to_list. }
  split. { unfold entries. by rewrite length_fmap, length_map_to_list. }
  split; [exact Hmem|].
  split.
  { intros l Hl. apply Hmem in Hl as (k & v & Hkv & ->). exists k.
    split; [apply lookup_insert_eq|]. apply elem_of_dom. by eexists. }
  repeat split.
Qed.

(** *** anyTagging *)

(** X17: Writing [anyTagging] and reading it back gives the value written: the
    setter puts it in all four tagging flags, and every other atom is as it
    was. *)
Theorem anyTagging_set_get (value : bool) s :
  anyTagging_get (anyTagging_set value s) = value /\
  (forall m l, tagging (anyTagging_set value s) m l = value) /\
  stateDescription (anyTagging_set value s) = stateDescription s /\
  view (anyTagging_set value s) = view s /\
  hiddenLabels (anyTagging_set value s) = hiddenLabels s /\
  modal (anyTagging_set value s) = modal s /\
  viewCls (anyTagging_set value s) = viewCls s /\
  sampleFields (anyTagging_set value s) = sampleFields s /\
  frameFields (anyTagging_set value s) = frameFields s /\
  teamsSubmitted (anyTagging_set value s) = teamsSubmitted s /\
  stateSubscription (anyTagging_set value s) = stateSubscription s.
Proof.
  split; [by destruct value|].
  split; [intros [] []; reflexivity|]. by repeat split.
Qed.

(** *** hiddenFieldLabels *)

(** X18: Without a modal ([isModalActive] is false) [hiddenFieldLabels]
    throws.  With one it returns, each
    once, the ids of the hidden labels whose [sample_id] is the sample of the
    modal and whose [field] is the field asked for; they are all among
    [hiddenLabelIds]; for an empty sample id it returns nothing. *)
Theorem hiddenFieldLabels_selects (fieldName : string) s :
  match modal s with
  | None =>
      isModalActive s = false /\ hiddenFieldLabels fieldName s = Throw TypeError
  | Some _id =>
      exists ids,
        isModalActive s = true /\
        hiddenFieldLabels fieldName s = Ok ids /\
        NoDup ids /\
        (forall i, i ∈ ids <->
           _id <> ""%string /\
           exists l, hiddenLabels s !! i = Some l /\ hidden_in _id fieldName l) /\
        (forall i, i ∈ ids -> i ∈ hiddenLabelIds s)
  end.
Proof.
  unfold hiddenFieldLabels, isModalActive.
  destruct (modal s) as [_id|]; [|by split].
  assert (Hchar : forall i,
    i ∈ (filter (fun kv => hidden_in _id fieldName kv.2) (entries (hiddenLabels s))).*1
    <-> exists l, hiddenLabels s !! i = Some l /\ hidden_in _id fieldName l).
  { intros i. rewrite list_elem_of_fmap. split.
    - intros ([k l] & -> & Hin). apply list_elem_of_filter in Hin as [Hh Hin].
      apply elem_of_map_to_list in Hin. by exists l.
    - intros (l & Hl & Hh). exists (i, l). split; [done|].
      apply list_elem_of_filter. split; [done|]. by apply elem_of_map_to_list. }
  unfold truthy_string. destruct (String.eqb_spec _id "") as [->|Hne]; cbn [negb].
  - exists []. split; [reflexivity|]. split; [reflexivity|]. split; [constructor|].
    split; [|intros i Hi; by apply elem_of_nil in Hi].
    intros i. split; [intros Hi; by apply elem_of_nil in Hi | by intros [? _]].
  - eexists. split; [reflexivity|]. split; [reflexivity|]. split.
    + eapply sublist_NoDup; [apply (NoDup_fst_map_to_list (hiddenLabels s))|].
      apply fmap_sublist, sublist_filter.
    + split.
      * intros i. rewrite Hchar. tauto.
      * intros i Hi. apply Hchar in Hi as (l & Hl & _).
        unfold hiddenLabelIds. apply elem_of_dom. by eexists.
Qed.

(** *** The selectors of a session without state description *)

(** X19: Before the state description has arrived, the selectors that read it
    through optional chaining answer with their empty value, while [targets]
    and [getTarget], which read [.dataset] of it directly, throw a
    [TypeError]. *)
Theorem selectors_without_state s :
  stateDescription s = None ->
  connected s = false /\
  datasetName s = None /\ hasDataset s = false /\
  mediaType s = None /\ isVideoDataset s = false /\
  datasets s = [] /\ refresh s = None /\
  targets s = Throw TypeError /\
  getTarget s = Throw TypeError.
Proof.
  intros Hs. unfold hasDataset, isVideoDataset, getTarget.
  unfold connected, datasetName, mediaType, datasets, refresh, targets.
  rewrite Hs. cbn.
  by repeat split.
Qed.

(** A dataset name means a connected session: [hasDataset] implies
    [connected], and so does [isVideoDataset]. *)
Theorem hasDataset_implies_connected s :
  (hasDataset s = true -> connected s = true /\ exists name, datasetName s = Some name
                                                   /\ name <> ""%string) /\
  (isVideoDataset s = true -> connected s = true /\ mediaType s = Some "video"%string).
Proof.
  unfold hasDataset, isVideoDataset. unfold connected, datasetName, mediaType.
  destruct (stateDescription s) as [sd|]; cbn; [|split; intros H; discriminate H].
  split.
  - intros H. split; [reflexivity|].
    destruct (sd_dataset sd ≫= ds_name) as [name|]; [|discriminate H].
    exists name. split; [reflexivity|]. intros ->. discriminate H.
  - intros H. split; [reflexivity|]. by apply bool_decide_eq_true in H.
Qed.

(** *** similarityKeys *)

Lemma similarity_fold (es : list (string * BrainMethod)) : forall acc,
  let r := foldl similarity_step acc es in
  (forall k f, (k, f) ∈ patches r <->
     (k, f) ∈ patches acc \/
     exists b, (k, b) ∈ es /\ patches_field (config b) = Some f /\ f <> ""%string) /\
  (forall k, k ∈ samples r <->
     k ∈ samples acc \/
     exists b, (k, b) ∈ es /\ truthy_string (patches_field (config b)) = false) /\
  length (patches r) + length (samples r)
  = length (patches acc) + length (samples acc) + length es.
Proof.
  induction es as [|[k0 b0] es IH]; intros acc; cbn zeta.
  - cbn. split; [|split; [|lia]].
    + intros k f. split; [tauto|]. intros [H|(b & Hb & _)]; [done|].
      by apply elem_of_nil in Hb.
    + intros k. split; [tauto|]. intros [H|(b & Hb & _)]; [done|].
      by apply elem_of_nil in Hb.
  - cbn [foldl]. destruct (IH (similarity_step acc (k0, b0))) as (Hp & Hs & Hlen).
    assert (Hstep :
      (patches (similarity_step acc (k0, b0)) = patches acc
       /\ samples (similarity_step acc (k0, b0)) = samples acc ++ [k0]
       /\ truthy_string (patches_field (config b0)) = false) \/
      (exists f, patches_field (config b0) = Some f /\ f <> ""%string
       /\ patches (similarity_step acc (k0, b0)) = patches acc ++ [(k0, f)]
       /\ samples (similarity_step acc (k0, b0)) = samples acc)).
    { unfold similarity_step. cbn [fst snd].
      destruct (patches_field (config b0)) as [f|]; [|by left].
      unfold truthy_string. destruct (String.eqb_spec f "") as [->|Hf]; cbn.
      - by left.
      - right. by exists f. }
    split; [|split].
    + intros k f. rewrite Hp. setoid_rewrite elem_of_cons.
      destruct Hstep as [(-> & _ & Hfalsy)|(f0 & Hf0 & Hne & -> & _)].
      * split; [intros [?|(b & ? & ? & ?)]; [by left | right; eauto] |].
        intros [?|(b & [[= -> ->]|?] & Hb & Hn)]; [by left| |right; eauto].
        rewrite Hb in Hfalsy. unfold truthy_string in Hfalsy.
        destruct (String.eqb_spec f ""); [done | discriminate].
      * rewrite elem_of_app, list_elem_of_singleton. split.
        -- intros [[?|[= -> ->]]|(b & ? & ? & ?)];
             [by left | right; exists b0; eauto | right; eauto].
        -- intros [?|(b & [[= -> ->]|?] & Hb & Hn)];
             [by left; left | left; right; congruence | right; eauto].
    + intros k. rewrite Hs. setoid_rewrite elem_of_cons.
      destruct Hstep as [(_ & -> & Hfalsy)|(f0 & Hf0 & Hne & _ & ->)].
      * rewrite elem_of_app, list_elem_of_singleton. split.
        -- intros [[?| ->]|(b & ? & ?)];
             [by left | right; exists b0; eauto | right; eauto].
        -- intros [?|(b & [[= -> ->]|?] & Hb)];
             [by left; left | by left; right | right; eauto].
      * split; [intros [?|(b & ? & ?)]; [by left | right; eauto] |].
        intros [?|(b & [[= -> ->]|?] & Hb)]; [by left| |right; eauto].
        rewrite Hf0 in Hb. unfold truthy_string in Hb.
        destruct (String.eqb_spec f0 ""); [done | discriminate].
    + rewrite Hlen. cbn [length].
      destruct Hstep as [(-> & -> & _)|(f0 & _ & _ & -> & ->)];
        rewrite length_app; cbn; lia.
Qed.

Section Similarity.
Variable brainMethods : Dataset -> option (gmap string BrainMethod).

(** X20: [similarityKeys] sorts the brain methods whose method is "similarity",
    and no other, into two groups: a key with a non-empty [patches_field]
    goes to [patches], paired with that field, and a key without one goes to
    [samples]; every such key is in exactly one group, once. *)
Theorem similarityKeys_partitions s :
  let brain := default ∅ ((stateDescription s ≫= sd_dataset) ≫= brainMethods) in
  let r := similarityKeys brainMethods s in
  (forall k f, (k, f) ∈ patches r <->
     exists b, brain !! k = Some b /\ method (config b) = "similarity"%string /\
               patches_field (config b) = Some f /\ f <> ""%string) /\
  (forall k, k ∈ samples r <->
     exists b, brain !! k = Some b /\ method (config b) = "similarity"%string /\
               truthy_string (patches_field (config b)) = false) /\
  length (patches r) + length (samples r)
  = size (filter (fun kv => method (config kv.2) = "similarity"%string) brain).
Proof.
  cbn zeta. unfold similarityKeys.
  set (brain := default ∅ ((stateDescription s ≫= sd_dataset) ≫= brainMethods)).
  set (es := filter (fun kv => method (config kv.2) = "similarity"%string) (entries brain)).
  destruct (similarity_fold es {| patches := []; samples := [] |}) as (Hp & Hs & Hlen).
  assert (Hes : forall k b, (k, b) ∈ es <->
            brain !! k = Some b /\ method (config b) = "similarity"%string).
  { intros k b. unfold es. rewrite list_elem_of_filter. unfold entries.
    rewrite elem_of_map_to_list. cbn. tauto. }
  split; [|split].
  - intros k f. rewrite Hp. cbn. split.
    + intros [H|(b & Hb & Hf & Hne)]; [by apply elem_of_nil in H|].
      apply Hes in Hb as [Hb Hm]. eauto 10.
    + intros (b & Hb & Hm & Hf & Hne). right. exists b. rewrite Hes. eauto.
  - intros k. rewrite Hs. cbn. split.
    + intros [H|(b & Hb & Hf)]; [by apply elem_of_nil in H|].
      apply Hes in Hb as [Hb Hm]. eauto 10.
    + intros (b & Hb & Hm & Hf). right. exists b. rewrite Hes. eauto.
  - rewrite Hlen. cbn. unfold es, entries.
    rewrite map_filter_alt, <- length_map_to_list.
    symmetry. apply Permutation_length, map_to_list_to_map.
    eapply sublist_NoDup; [apply (NoDup_fst_map_to_list brain)|].
    apply fmap_sublist, sublist_filter.
Qed.
End Similarity.

(** *** showTeamsButton *)

Section Teams.
Variable http : string.

(** X21: A truthy legacy flag in the local storage is used up by the first
    evaluation of [showTeamsButton]: that evaluation removes it and posts
    one acknowledgement; a second evaluation posts nothing and answers as if
    the storage were empty.  So a stored "submitted" hides the button the
    first time only, unless one of the other flags says submitted. *)
Theorem showTeamsButton_uses_flag_once (teams : Teams) s (b : Browser) :
  let first := showTeamsButton http teams s b in
  let second := showTeamsButton http teams s first.2 in
  (truthy_string (localStorage b !! "fiftyone-teams"%string) = true ->
   localStorage first.2 = delete "fiftyone-teams"%string (localStorage b) /\
   posted first.2 = posted b ++ [http +:+ "/teams?submitted=true"]) /\
  (truthy_string (localStorage b !! "fiftyone-teams"%string) = false -> first.2 = b) /\
  posted second.2 = posted first.2 /\
  second.1 = (showTeamsButton http teams s {| localStorage := ∅; posted := posted b |}).1 /\
  (localStorage b !! "fiftyone-teams"%string = Some "submitted"%string ->
   teams_submitted teams = false -> (teamsSubmitted s).1 = false ->
   first.1 = "hidden"%string /\ second.1 <> "hidden"%string).
Proof.
  cbn zeta.
  assert (Hsnd : forall b0, (showTeamsButton http teams s b0).2
            = if truthy_string (localStorage b0 !! "fiftyone-teams"%string)
              then {| localStorage := delete "fiftyone-teams"%string (localStorage b0);
                      posted := posted b0 ++ [http +:+ "/teams?submitted=true"] |}
              else b0).
  { intros b0. unfold showTeamsButton.
    repeat match goal with |- context [if ?c then _ else _] => destruct c end;
      reflexivity. }
  assert (Hfst : forall b0, localStorage b0 !! "fiftyone-teams"%string ≠ Some "submitted"%string ->
            (showTeamsButton http teams s b0).1
            = if teams_submitted teams || (teamsSubmitted s).1 then "hidden"%string
              else if teams_minimized teams || (teamsSubmitted s).2 then "minimized"%string
              else "shown"%string).
  { intros b0 Hno. unfold showTeamsButton.
    rewrite (bool_decide_eq_false_2 _ Hno), orb_false_r.
    repeat match goal with |- context [if ?c then _ else _] => destruct c end;
      reflexivity. }
  assert (Hgone : truthy_string (localStorage (showTeamsButton http teams s b).2
                                   !! "fiftyone-teams"%string) = false
                  /\ localStorage (showTeamsButton http teams s b).2
                       !! "fiftyone-teams"%string ≠ Some "submitted"%string).
  { rewrite Hsnd.
    destruct (truthy_string (localStorage b !! "fiftyone-teams"%string)) eqn:Ht.
    - cbn. rewrite lookup_delete_eq. by split.
    - split; [exact Ht|]. intros Heq. rewrite Heq in Ht. discriminate Ht. }
  destruct Hgone as [Hgone Hgone'].
  split. { intros Ht. rewrite Hsnd, Ht. by split. }
  split. { intros Ht. by rewrite Hsnd, Ht. }
  split. { by rewrite (Hsnd (showTeamsButton http teams s b).2), Hgone. }
  split.
  { rewrite (Hfst _ Hgone'). rewrite Hfst; [reflexivity|].
    cbn. by rewrite lookup_empty. }
  intros Hstored Hteams Hlocal. split.
  - unfold showTeamsButton. rewrite Hstored, Hteams, Hlocal. cbn.
    rewrite bool_decide_eq_true_2 by done. reflexivity.
  - rewrite (Hfst _ Hgone'), Hteams, Hlocal. cbn.
    by destruct (teams_minimized teams || (teamsSubmitted s).2).
Qed.
End Teams.

End Selectors.

(** A numeric id and a string id can make the same key; then the mapping
    keeps one label for the two. *)
Example numeric_labelId_clash :
  key_of label_1e21 = "1e+21"%string /\
  key_of label_1e21_string = "1e+21"%string /\
  ~ NoDup (key_of <$> [label_1e21; label_1e21_string]) /\
  selectedLabels_get (with_selectedLabels [label_1e21; label_1e21_string])
    = Ok {[ "1e+21"%string := label_1e21_string ]}.
Proof.
  split; [by vm_compute|]. split; [by vm_compute|]. split.
  - intros Hnd. apply NoDup_cons in Hnd as [Hnot _]. apply Hnot.
    apply list_elem_of_singleton. by vm_compute.
  - vm_compute. reflexivity.
Qed.

Lemma selectedLabelIds_are_the_labelIds_witness :
  stateDescription (with_selectedLabels [label0; label1]) ≫= sd_selectedLabels
    = Some [label0; label1] /\
  selectedLabelIds (with_selectedLabels [label0; label1])
    = Ok (list_to_set (key_of <$> [label0; label1])).
Proof.
  split; [reflexivity|].
  apply (selectedLabelIds_are_the_labelIds
           (with_selectedLabels [label0; label1]) [label0; label1]).
  reflexivity.
Defined.

Lemma selectedLabels_last_label_wins_witness :
(key_of label0_again ∉ key_of <$> [label1]) /\
  exists m,
    selectedLabels_get (with_selectedLabels ([label0] ++ label0_again :: [label1])) = Ok m /\
    m !! key_of label0_again = Some label0_again.
Proof.
  assert (H : key_of label0_again ∉ key_of <$> [label1]).
  { intros Hin. apply list_elem_of_singleton in Hin. vm_compute in Hin. discriminate Hin. }
  split; [exact H|].
  apply (selectedLabels_last_label_wins
           (with_selectedLabels ([label0] ++ label0_again :: [label1]))
           [label0] [label1] label0_again); [reflexivity | exact H].
Defined.

Lemma selectedLabels_distinct_ids_witness :
  NoDup (key_of <$> [label0; label1]) /\
  exists m,
    selectedLabels_get (with_selectedLabels [label0; label1]) = Ok m /\
    size m = length [label0; label1] /\
    (forall k l, m !! k = Some l <-> l ∈ [label0; label1] /\ key_of l = k).
Proof.
  assert (H : NoDup (key_of <$> [label0; label1])).
  { apply NoDup_cons. split; [|apply NoDup_singleton].
    intros Hin. apply list_elem_of_singleton in Hin. vm_compute in Hin. discriminate Hin. }
  split; [exact H|].
  apply (selectedLabels_distinct_ids (with_selectedLabels [label0; label1])
           [label0; label1]); [reflexivity | exact H].
Defined.

Lemma selectors_without_state_witness :
  stateDescription snapshot_offline = None /\
  connected snapshot_offline = false /\
  datasetName snapshot_offline = None /\ hasDataset snapshot_offline = false /\
  mediaType snapshot_offline = None /\ isVideoDataset snapshot_offline = false /\
  datasets snapshot_offline = [] /\ refresh snapshot_offline = None /\
  targets snapshot_offline = Throw TypeError /\
  getTarget snapshot_offline = Throw TypeError.
Proof.
  split; [reflexivity|].
  apply (selectors_without_state snapshot_offline). reflexivity.
Defined.

End SessionMore.

(** * The color settings *)

Module ColorSettingsProps.
Import ViewBar ColorSettings MoreFixtures.

Implicit Types (st : Rows) (pairs : list LabelColor).

(** *** AttributeColorSetting *)

(** X22: [handleAdd] appends one pair with an empty name and one closed picker
    flag, so rows that had a flag each still have; the rest of the setting is
    untouched. *)
Theorem handleAdd_keeps_rows_aligned (drawn : option string) st :
  length (showPicker st) = length (default [] (values st)) ->
  values (handleAdd drawn st)
    = Some (default [] (values st) ++ [ {| lc_name := ""; lc_color := drawn |} ]) /\
  showPicker (handleAdd drawn st) = showPicker st ++ [false] /\
  length (showPicker (handleAdd drawn st))
    = length (default [] (values (handleAdd drawn st))) /\
  colors (tempColor (handleAdd drawn st)) = colors (tempColor st) /\
  attributeForColor (tempColor (handleAdd drawn st)) = attributeForColor (tempColor st).
Proof.
  intros Hlen. unfold handleAdd, values in *. cbn.
  destruct (labelColors (tempColor st)) as [l|]; cbn in *;
    rewrite ?length_app; cbn; repeat split; lia.
Qed.

Lemma handleAdd_keeps_rows_aligned_witness :
  length (showPicker two_rows) = length (default [] (values two_rows)) /\
  values (handleAdd (Some "#0000ee"%string) two_rows)
    = Some (default [] (values two_rows)
              ++ [ {| lc_name := ""; lc_color := Some "#0000ee"%string |} ]) /\
  showPicker (handleAdd (Some "#0000ee"%string) two_rows) = showPicker two_rows ++ [false] /\
  length (showPicker (handleAdd (Some "#0000ee"%string) two_rows))
    = length (default [] (values (handleAdd (Some "#0000ee"%string) two_rows))) /\
  colors (tempColor (handleAdd (Some "#0000ee"%string) two_rows))
    = colors (tempColor two_rows) /\
  attributeForColor (tempColor (handleAdd (Some "#0000ee"%string) two_rows))
    = attributeForColor (tempColor two_rows).
Proof.
  split; [reflexivity|].
  apply (handleAdd_keeps_rows_aligned (Some "#0000ee"%string) two_rows). reflexivity.
Defined.

Lemma slice_pos_nat {A} (l : list A) (i : nat) :
  i <= length l -> slice_pos l (Z.of_nat i) = i.
Proof. intros Hi. unfold slice_pos. destruct (Z.ltb_spec (Z.of_nat i) 0); lia. Qed.

(** X23: [handleDelete] removes the pair of the row and leaves the picker flags
    alone: rows that had a flag each are then one flag too many, and every
    row from the deleted one on shows the pair that followed it with the flag
    it had before. *)
Theorem handleDelete_leaves_picker_flags (i : nat) st pairs :
  values st = Some pairs ->
  i < length pairs ->
  length (showPicker st) = length pairs ->
  values (handleDelete (Z.of_nat i) st) = Some (delete i pairs) /\
  showPicker (handleDelete (Z.of_nat i) st) = showPicker st /\
  length (showPicker (handleDelete (Z.of_nat i) st))
    = S (length (default [] (values (handleDelete (Z.of_nat i) st)))) /\
  (forall j, j < i ->
     default [] (values (handleDelete (Z.of_nat i) st)) !! j = pairs !! j) /\
  (forall j, i <= j ->
     default [] (values (handleDelete (Z.of_nat i) st)) !! j = pairs !! S j /\
     showPicker (handleDelete (Z.of_nat i) st) !! j = showPicker st !! j).
Proof.
  intros Hv Hi Hlen. unfold handleDelete, values in *. cbn. rewrite Hv. cbn.
  unfold splice_one. rewrite slice_pos_nat by lia.
  split; [reflexivity|]. split; [reflexivity|].
  split. { rewrite length_delete by (by apply lookup_lt_is_Some_2). lia. }
  split.
  - intros j Hj. by apply list_lookup_delete_lt.
  - intros j Hj. split; [by apply list_lookup_delete_ge | reflexivity].
Qed.

Lemma handleDelete_leaves_picker_flags_witness :
  values two_rows = Some (default [] (values two_rows)) /\
  values (handleDelete (Z.of_nat 0) two_rows) = Some (delete 0 (default [] (values two_rows))) /\
  showPicker (handleDelete (Z.of_nat 0) two_rows) = showPicker two_rows /\
  length (showPicker (handleDelete (Z.of_nat 0) two_rows))
    = S (length (default [] (values (handleDelete (Z.of_nat 0) two_rows)))) /\
  (forall j, j < 0 ->
     default [] (values (handleDelete (Z.of_nat 0) two_rows)) !! j
     = default [] (values two_rows) !! j) /\
  (forall j, 0 <= j ->
     default [] (values (handleDelete (Z.of_nat 0) two_rows)) !! j
     = default [] (values two_rows) !! S j /\
     showPicker (handleDelete (Z.of_nat 0) two_rows) !! j = showPicker two_rows !! j).
Proof.
  split; [reflexivity|].
  apply (handleDelete_leaves_picker_flags 0 two_rows (default [] (values two_rows)));
    [reflexivity | cbn; lia | reflexivity].
Defined.

(** X24: Adding a pair and deleting the row it got gives the pairs back, but not
    the picker flags: one flag stays behind. *)
Theorem handleAdd_then_handleDelete (drawn : option string) st pairs :
  values st = Some pairs ->
  values (handleDelete (Z.of_nat (length pairs)) (handleAdd drawn st)) = Some pairs /\
  showPicker (handleDelete (Z.of_nat (length pairs)) (handleAdd drawn st))
    = showPicker st ++ [false].
Proof.
  intros Hv. unfold handleDelete, handleAdd, values in *. cbn. rewrite Hv. cbn.
  split; [|reflexivity]. f_equal. unfold splice_one.
  rewrite slice_pos_nat by (rewrite length_app; cbn; lia).
  clear Hv. induction pairs as [|p pairs IH]; [reflexivity|].
  cbn. f_equal. exact IH.
Qed.

Lemma handleAdd_then_handleDelete_witness :
  values two_rows = Some (default [] (values two_rows)) /\
  values (handleDelete (Z.of_nat (length (default [] (values two_rows))))
            (handleAdd None two_rows))
    = Some (default [] (values two_rows)) /\
  showPicker (handleDelete (Z.of_nat (length (default [] (values two_rows))))
                (handleAdd None two_rows))
    = showPicker two_rows ++ [false].
Proof.
  split; [reflexivity|].
  apply (handleAdd_then_handleDelete None two_rows (default [] (values two_rows))).
  reflexivity.
Defined.

Lemma map_at_lookup {A} (index : Z) (f : A -> A) (l : list A) j :
  map_at index f l !! j
  = (fun x => if bool_decide (Z.of_nat j = index) then f x else x) <$> l !! j.
Proof. unfold map_at. by rewrite list_lookup_imap. Qed.

(** X25: Clicking the color square of a row twice leaves every picker flag as it
    was, whatever the row. *)
Theorem togglePicker_twice (index : Z) st :
  togglePicker index (togglePicker index st) = st.
Proof.
  destruct st as [tc sp]. unfold togglePicker. cbn [tempColor showPicker]. f_equal.
  apply list_eq. intros j. rewrite !map_at_lookup.
  destruct (sp !! j) as [x|]; cbn; [|reflexivity].
  destruct (bool_decide (Z.of_nat j = index)); [|reflexivity].
  by rewrite negb_involutive.
Qed.

(** X26: [handleChange] writes one property of one pair: it goes through exactly
    when the index is a row, and then the other property of that pair, the
    other pairs and the picker flags are as before; on any other index it
    throws a TypeError. *)
Theorem handleChange_writes_one_property (index : Z) (key : PairKey) (value : string)
    st pairs :
  values st = Some pairs ->
  match handleChange index key value st with
  | Ok st' =>
      (0 <= index < Z.of_nat (length pairs))%Z /\
      exists p p',
        pairs !! Z.to_nat index = Some p /\
        values st' = Some (<[Z.to_nat index := p']> pairs) /\
        match key with
        | key_name => lc_name p' = value /\ lc_color p' = lc_color p
        | key_color => lc_color p' = Some value /\ lc_name p' = lc_name p
        end /\
        (forall j, j <> Z.to_nat index ->
           default [] (values st') !! j = pairs !! j) /\
        showPicker st' = showPicker st
  | Throw err =>
      ~ (0 <= index < Z.of_nat (length pairs))%Z /\ err = TypeError
  end.
Proof.
  intros Hv. unfold handleChange. rewrite Hv. cbn [default]. unfold Datatypes.id.
  destruct (at_index pairs index) as [p|] eqn:Hat; cbv beta iota zeta.
  - unfold at_index in Hat. destruct (Z.ltb_spec index 0) as [?|Hpos]; [discriminate|].
    split; [apply lookup_lt_Some in Hat; lia|].
    exists p, (set_pair key value p). split; [exact Hat|]. split; [reflexivity|].
    split; [by destruct key|]. split; [|reflexivity].
    intros j Hj. cbn. by rewrite list_lookup_insert_ne.
  - split; [|reflexivity]. intros Hin. unfold at_index in Hat.
    destruct (Z.ltb_spec index 0) as [?|Hpos]; [lia|].
    apply lookup_ge_None in Hat. lia.
Qed.

Lemma handleChange_writes_one_property_witness :
  values two_rows = Some (default [] (values two_rows)) /\
  match handleChange 1 key_name "bush" two_rows with
  | Ok st' =>
      (0 <= 1 < Z.of_nat (length (default [] (values two_rows))))%Z /\
      exists p p',
        default [] (values two_rows) !! Z.to_nat 1 = Some p /\
        values st' = Some (<[Z.to_nat 1 := p']> (default [] (values two_rows))) /\
        match key_name with
        | key_name => lc_name p' = "bush"%string /\ lc_color p' = lc_color p
        | key_color => lc_color p' = Some "bush"%string /\ lc_name p' = lc_name p
        end /\
        (forall j, j <> Z.to_nat 1 ->
           default [] (values st') !! j = default [] (values two_rows) !! j) /\
        showPicker st' = showPicker two_rows
  | Throw err =>
      ~ (0 <= 1 < Z.of_nat (length (default [] (values two_rows))))%Z /\ err = TypeError
  end.
Proof.
  split; [reflexivity|].
  apply (handleChange_writes_one_property 1 key_name "bush" two_rows
           (default [] (values two_rows))).
  reflexivity.
Defined.

(** X27: Picking a color for a row sets the color of its pair, keeps its name and
    closes its picker; the other pairs and the other flags are as before.
    For an index that is no row it throws a TypeError. *)
Theorem hanldeColorChange_sets_color_and_closes (hex : option string) (index : Z)
    st pairs :
  labelColors (tempColor st) = Some pairs ->
  match hanldeColorChange hex index st with
  | Ok st' =>
      exists p,
        pairs !! Z.to_nat index = Some p /\
        (0 <= index)%Z /\
        default [] (values st') !! Z.to_nat index
          = Some {| lc_name := lc_name p; lc_color := hex |} /\
        (forall j, j <> Z.to_nat index ->
           default [] (values st') !! j = pairs !! j /\
           showPicker st' !! j = showPicker st !! j) /\
        (Z.to_nat index < length (showPicker st) ->
         showPicker st' !! Z.to_nat index = Some false) /\
        length (showPicker st') = length (showPicker st)
  | Throw err =>
      ~ (0 <= index < Z.of_nat (length pairs))%Z /\ err = TypeError
  end.
Proof.
  intros Hv. unfold hanldeColorChange. rewrite Hv. cbn [default]. unfold Datatypes.id.
  destruct (at_index pairs index) as [p|] eqn:Hat; cbv beta iota zeta.
  - unfold at_index in Hat. destruct (Z.ltb_spec index 0) as [?|Hpos]; [discriminate|].
    exists p. split; [exact Hat|]. split; [exact Hpos|]. cbn.
    split. { apply list_lookup_insert_eq. by eapply lookup_lt_Some. }
    split.
    { intros j Hj. split; [by rewrite list_lookup_insert_ne|].
      rewrite map_at_lookup. destruct (showPicker st !! j); cbn; [|reflexivity].
      rewrite bool_decide_eq_false_2 by lia. reflexivity. }
    split.
    { intros Hlt. rewrite map_at_lookup.
      destruct (lookup_lt_is_Some_2 (showPicker st) (Z.to_nat index) Hlt) as [x ->].
      cbn. rewrite bool_decide_eq_true_2 by lia. reflexivity. }
    unfold map_at. apply length_imap.
  - split; [|reflexivity]. intros Hin. unfold at_index in Hat.
    destruct (Z.ltb_spec index 0) as [?|Hpos]; [lia|].
    apply lookup_ge_None in Hat. lia.
Qed.

Lemma hanldeColorChange_sets_color_and_closes_witness :
  labelColors (tempColor two_rows) = Some (default [] (values two_rows)) /\
  match hanldeColorChange (Some "#123456"%string) 1 two_rows with
  | Ok st' =>
      exists p,
        default [] (values two_rows) !! Z.to_nat 1 = Some p /\
        (0 <= 1)%Z /\
        default [] (values st') !! Z.to_nat 1
          = Some {| lc_name := lc_name p; lc_color := Some "#123456"%string |} /\
        (forall j, j <> Z.to_nat 1 ->
           default [] (values st') !! j = default [] (values two_rows) !! j /\
           showPicker st' !! j = showPicker two_rows !! j) /\
        (Z.to_nat 1 < length (showPicker two_rows) ->
         showPicker st' !! Z.to_nat 1 = Some false) /\
        length (showPicker st') = length (showPicker two_rows)
  | Throw err =>
      ~ (0 <= 1 < Z.of_nat (length (default [] (values two_rows))))%Z /\ err = TypeError
  end.
Proof.
  split; [reflexivity|].
  apply (hanldeColorChange_sets_color_and_closes (Some "#123456"%string) 1 two_rows
           (default [] (values two_rows))).
  reflexivity.
Defined.

(** *** ColorModalContent *)

(** X28: Unchecking one of the three boxes resets its part of the setting to a
    value that the mount effect reads as the default: restored from the
    setting, the box is unchecked again.  The parts of the other two boxes
    and the attribute for color are not touched, and checking a box changes
    no part of the setting. *)
Theorem unchecked_box_is_restored_unchecked (pool : list string)
    (drawn : option string) (name : Checkbox) (m : Modal) :
  match name with
  | box_attributeForOpacity =>
      checkbox1 (handleCheckboxChange drawn name false m) = false /\
      checkbox1 (restore pool (setting (handleCheckboxChange drawn name false m))) = false /\
      colors (setting (handleCheckboxChange drawn name false m)) = colors (setting m) /\
      labelColors (setting (handleCheckboxChange drawn name false m))
        = labelColors (setting m)
  | box_colors =>
      checkbox2 (handleCheckboxChange drawn name false m) = false /\
      checkbox2 (restore pool (setting (handleCheckboxChange drawn name false m))) = false /\
      attributeForOpacity (setting (handleCheckboxChange drawn name false m))
        = attributeForOpacity (setting m) /\
      labelColors (setting (handleCheckboxChange drawn name false m))
        = labelColors (setting m)
  | box_labelColors =>
      checkbox3 (handleCheckboxChange drawn name false m) = false /\
      checkbox3 (restore pool (setting (handleCheckboxChange drawn name false m))) = false /\
      attributeForOpacity (setting (handleCheckboxChange drawn name false m))
        = attributeForOpacity (setting m) /\
      colors (setting (handleCheckboxChange drawn name false m)) = colors (setting m)
  end /\
  attributeForColor (setting (handleCheckboxChange drawn name false m))
    = attributeForColor (setting m) /\
  setting (handleCheckboxChange drawn name true m) = setting m.
Proof. destruct name; cbn; repeat split. Qed.

Lemma append_same_length (a b c d : string) :
  String.length a = String.length b ->
  (a ++ c = b ++ d)%string -> a = b /\ c = d.
Proof.
  revert b. induction a as [|x a IH]; intros [|y b] Hlen Heq; cbn in *;
    try discriminate Hlen.
  - by split.
  - injection Heq as -> Heq. injection Hlen as Hlen.
    destruct (IH b Hlen Heq) as [-> ->]. by split.
Qed.

Lemma join_same_length (n : nat) (l1 l2 : list string) :
  0 < n ->
  Forall (fun c => String.length c = n) l1 ->
  Forall (fun c => String.length c = n) l2 ->
  foldr String.append ""%string l1 = foldr String.append ""%string l2 ->
  l1 = l2.
Proof.
  intros Hn H1. revert l2.
  induction H1 as [|x l1 Hx _ IH]; intros l2 H2 Heq.
  - destruct H2 as [|y l2 Hy _]; [reflexivity|]. cbn in Heq.
    destruct y; [cbn in Hy; lia | discriminate Heq].
  - destruct H2 as [|y l2 Hy H2]; cbn in Heq.
    + destruct x; [cbn in Hx; lia | discriminate Heq].
    + destruct (append_same_length x y _ _ ltac:(congruence) Heq) as [-> Hrest].
      f_equal. by apply IH.
Qed.

(** X29: When all colors are written with the same number of characters (as in
    #rrggbb), [hasDefaultColorPool] is exact: it says yes for no colors at
    all and for the pool itself, and for nothing else. *)
Theorem hasDefaultColorPool_exact (n : nat) (pool cs : list string) :
  0 < n ->
  Forall (fun c => String.length c = n) pool ->
  Forall (fun c => String.length c = n) cs ->
  (hasDefaultColorPool pool (Some cs) = true <-> cs = [] \/ cs = pool).
Proof.
  intros Hn Hpool Hcs. unfold hasDefaultColorPool.
  destruct cs as [|c cs]; [tauto|].
  rewrite bool_decide_eq_true. split.
  - intros Heq. right. by eapply join_same_length.
  - intros [Hnil|<-]; [discriminate Hnil | reflexivity].
Qed.

Lemma hasDefaultColorPool_exact_witness :
  0 < 7 /\
  (hasDefaultColorPool ["#ee0000"; "#00ee00"]%string (Some ["#ee0000"; "#0000ee"]%string) = true
   <-> ["#ee0000"; "#0000ee"]%string = [] \/
       ["#ee0000"; "#0000ee"]%string = ["#ee0000"; "#00ee00"]%string).
Proof.
  split; [lia|].
  apply (hasDefaultColorPool_exact 7 ["#ee0000"; "#00ee00"]%string
           ["#ee0000"; "#0000ee"]%string); [lia| |];
    repeat constructor.
Defined.

(** Without that, it can take another palette for the pool: joining the
    colors forgets where one ends and the next begins. *)
Lemma hasDefaultColorPool_confuses :
  hasDefaultColorPool ["red"; "dish"]%string (Some ["reddish"]%string) = true.
Proof. reflexivity. Qed.

End ColorSettingsProps.
